(** * Device Activity Tracker: web server and dashboard consumer

    A shallow embedding of the Socket.IO control surface of [src/server.ts]
    and of the event handlers of the React dashboard (the [Dashboard]
    component), with the properties of the presence-tracking specification
    that concern them.

    Conventions.
    - A JavaScript [Map<string, V>] is a [gmap string V]; [new Map(prev)]
      followed by updates of the copy is a functional update.
    - JavaScript objects that are mutated through references (the
      [WhatsAppTracker] instances) live in a heap, a list indexed by
      allocation order; the registry holds references into it.
    - An [await] on the messaging platform is resolved by an outcome that
      the environment supplies with the request, and a handler runs to its
      end before the next callback starts: requests do not overlap.
    - JavaScript numbers that are only copied around are integers here. *)

From Stdlib Require Import ZArith String Ascii List.
From stdpp Require Import gmap strings list fin_maps.

Local Open Scope string_scope.
Local Open Scope Z_scope.

(** ** JavaScript string helpers *)
Module Js.

(** [s.includes(sub)]: [sub] occurs in [s] as a contiguous substring.
    The patterns used are ASCII, so matching bytes or UTF-16 units agree. *)
Fixpoint includes (s sub : string) : bool :=
  String.prefix sub s ||
  match s with
  | EmptyString => false
  | String _ s' => includes s' sub
  end.

(** The character class [\d] is exactly the ASCII digits. *)
Definition is_digit (c : ascii) : bool :=
  let n := nat_of_ascii c in ((48 <=? n) && (n <=? 57))%nat.

(** [s.replace(/\D/g, '')]: drop every character that is not a digit. *)
Fixpoint strip_non_digits (s : string) : string :=
  match s with
  | EmptyString => EmptyString
  | String c s' =>
      if is_digit c then String c (strip_non_digits s')
      else strip_non_digits s'
  end.

(** Truthiness of a string value: the empty string is falsy. *)
Definition truthy (s : string) : bool :=
  match s with EmptyString => false | String _ _ => true end.

(** [a || b] where [a] is a string or [undefined]. *)
Definition or_else (a : option string) (b : string) : string :=
  match a with
  | Some s => if truthy s then s else b
  | None => b
  end.

End Js.

(** ** The dashboard consumer ([Dashboard] component) *)
Module Dashboard.

(** [interface DeviceInfo] *)
Record DeviceInfo := mkDevice {
  di_jid : string;
  di_state : string;
  di_rtt : Z;
  di_avg : Z
}.

(** [interface TrackerData]; [threshold] is copied from the update as it
    comes, so it is [None] when the update carries none. *)
Record TrackerData := mkPoint {
  td_rtt : Z;
  td_avg : Z;
  td_median : Z;
  td_threshold : option Z;
  td_state : string;
  td_timestamp : Z
}.

(** [interface ContactInfo] *)
Record ContactInfo := mkContact {
  ci_jid : string;
  ci_displayNumber : string;
  ci_contactName : string;
  ci_data : list TrackerData;
  ci_devices : list DeviceInfo;
  ci_deviceCount : Z;
  ci_presence : option string;
  ci_profilePic : option string
}.

(** The payload of a [tracker-update] event. It is typed [any] in the
    source: every field may be [undefined] ([None]); [presence] is a
    string or [null] when defined. *)
Record Update := mkUpdate {
  u_jid : option string;
  u_presence : option (option string);
  u_deviceCount : option Z;
  u_devices : option (list DeviceInfo);
  u_median : option Z;
  u_threshold : option Z
}.

(** The [state] of a new chart point:
    [devices.find(d => d.state.includes('Online'))?.state || devices[0].state].
    It is evaluated only under the guard [devices.length > 0]; on the empty
    list [devices[0].state] would throw, which is [None] here. *)
Definition headline_state (devices : list DeviceInfo) : option string :=
  match devices with
  | [] => None
  | d0 :: _ =>
      Some (Js.or_else
              (di_state <$>
                 List.find (fun d => Js.includes (di_state d) "Online") devices)
              (di_state d0))
  end.

(** The chart point appended by a [tracker-update], if any: the guard is
    [data.median !== undefined && data.devices && data.devices.length > 0]. *)
Definition newDataPoint (now : Z) (data : Update) : option TrackerData :=
  match u_median data, u_devices data with
  | Some median, Some (d0 :: rest) =>
      match headline_state (d0 :: rest) with
      | Some st =>
          Some {| td_rtt := di_rtt d0;
                  td_avg := di_avg d0;
                  td_median := median;
                  td_threshold := u_threshold data;
                  td_state := st;
                  td_timestamp := now |}
      | None => None
      end
  | _, _ => None
  end.

(** The body of the [if (contact)] branch of [onTrackerUpdate]. *)
Definition updateContact (now : Z) (data : Update) (contact : ContactInfo)
  : ContactInfo :=
  {| ci_jid := ci_jid contact;
     ci_displayNumber := ci_displayNumber contact;
     ci_contactName := ci_contactName contact;
     ci_data :=
       match newDataPoint now data with
       | Some p => (ci_data contact ++ [p])%list
       | None => ci_data contact
       end;
     ci_devices :=
       match u_devices data with
       | Some ds => ds
       | None => ci_devices contact
       end;
     ci_deviceCount :=
       match u_deviceCount data with
       | Some n => n
       | None => ci_deviceCount contact
       end;
     ci_presence :=
       match u_presence data with
       | Some p => p
       | None => ci_presence contact
       end;
     ci_profilePic := ci_profilePic contact |}.

(** [onTrackerUpdate(update)]; [now] is the value of [Date.now()].
    [if (!jid) return] leaves on an undefined or empty jid. *)
Definition onTrackerUpdate (now : Z) (update : Update)
    (prev : gmap string ContactInfo) : gmap string ContactInfo :=
  match u_jid update with
  | None => prev
  | Some jid =>
      if Js.truthy jid then
        match prev !! jid with
        | Some contact => <[jid := updateContact now update contact]> prev
        | None => prev
        end
      else prev
  end.

(** [onProfilePic({ jid, url })] *)
Definition onProfilePic (jid : string) (url : option string)
    (prev : gmap string ContactInfo) : gmap string ContactInfo :=
  match prev !! jid with
  | Some contact =>
      <[jid := {| ci_jid := ci_jid contact;
                  ci_displayNumber := ci_displayNumber contact;
                  ci_contactName := ci_contactName contact;
                  ci_data := ci_data contact;
                  ci_devices := ci_devices contact;
                  ci_deviceCount := ci_deviceCount contact;
                  ci_presence := ci_presence contact;
                  ci_profilePic := url |}]> prev
  | None => prev
  end.

(** [onContactName({ jid, name })] *)
Definition onContactName (jid name : string)
    (prev : gmap string ContactInfo) : gmap string ContactInfo :=
  match prev !! jid with
  | Some contact =>
      <[jid := {| ci_jid := ci_jid contact;
                  ci_displayNumber := ci_displayNumber contact;
                  ci_contactName := name;
                  ci_data := ci_data contact;
                  ci_devices := ci_devices contact;
                  ci_deviceCount := ci_deviceCount contact;
                  ci_presence := ci_presence contact;
                  ci_profilePic := ci_profilePic contact |}]> prev
  | None => prev
  end.

(** [onContactAdded({ jid, number })] *)
Definition onContactAdded (jid number : string)
    (prev : gmap string ContactInfo) : gmap string ContactInfo :=
  <[jid := {| ci_jid := jid;
              ci_displayNumber := number;
              ci_contactName := number;
              ci_data := [];
              ci_devices := [];
              ci_deviceCount := 0;
              ci_presence := None;
              ci_profilePic := None |}]> prev.

(** [onContactRemoved(jid)] *)
Definition onContactRemoved (jid : string)
    (prev : gmap string ContactInfo) : gmap string ContactInfo :=
  delete jid prev.

(** The socket events the component subscribes to that touch [contacts]. *)
Inductive Incoming :=
| TrackerUpdate (now : Z) (update : Update)
| ProfilePic (jid : string) (url : option string)
| ContactName (jid name : string)
| ContactAdded (jid number : string)
| ContactRemoved (jid : string).

Definition dispatch (ev : Incoming) (contacts : gmap string ContactInfo)
  : gmap string ContactInfo :=
  match ev with
  | TrackerUpdate now update => onTrackerUpdate now update contacts
  | ProfilePic jid url => onProfilePic jid url contacts
  | ContactName jid name => onContactName jid name contacts
  | ContactAdded jid number => onContactAdded jid number contacts
  | ContactRemoved jid => onContactRemoved jid contacts
  end.

(** The jid an event is about, as the handlers read it. *)
Definition incoming_jid (ev : Incoming) : option string :=
  match ev with
  | TrackerUpdate _ update => u_jid update
  | ProfilePic jid _ | ContactName jid _
  | ContactAdded jid _ | ContactRemoved jid => Some jid
  end.

End Dashboard.

(** ** The Tracker of one contact

    [server.ts] imports [WhatsAppTracker] and [ProbeMethod] from
    [./tracker], which is not among the sources. The server only constructs
    a tracker, assigns [onUpdate], and calls [setProbeMethod],
    [startTracking], [stopTracking] and [getProfilePicture] on it. *)
Module Tracker.

(** Modelled from the spec: the categorical device state, not in the
    sources. "an explicit three-valued enum {Online, Offline, Unknown}". *)
Inductive DeviceState := Online | Offline | Unknown.

(** The state as it travels in [DeviceInfo.state], a string. *)
Definition state_name (st : DeviceState) : string :=
  match st with
  | Online => "Online"
  | Offline => "Offline"
  | Unknown => "Unknown"
  end.

(** Modelled from the spec: the device state classifier of ./tracker, not
    in the sources. "No sample received within the round's deadline ->
    Unknown. Sample received, RTT <= threshold -> Online. Sample received,
    RTT > threshold -> Offline." *)
Definition classify (sample : option Z) (threshold : Z) : DeviceState :=
  match sample with
  | None => Unknown
  | Some rtt => if rtt <=? threshold then Online else Offline
  end.

Definition is_online (st : DeviceState) : bool :=
  match st with
  | Online => true
  | Offline | Unknown => false
  end.

(** Whether a string is the name of one of the three states. *)
Definition is_state_name (s : string) : bool :=
  existsb (String.eqb s) (map state_name [Online; Offline; Unknown]).

(** Modelled from the spec: the contact-level aggregate as the spec words
    it, over the round results of the devices (a sample or none), to be
    compared with what the dashboard computes. "Online if any device is
    Online; else Offline if any device reported this round; else Unknown". *)
Definition aggregate_spec (results : list (option Z)) (threshold : Z)
  : DeviceState :=
  if existsb (fun r => is_online (classify r threshold)) results then Online
  else if existsb (fun r => match r with Some _ => true | None => false end)
            results
  then Offline
  else Unknown.

(** The [DeviceInfo] entry of a device with the given round result; a
    device without a sample has no RTT to report, written [0]. *)
Definition device_of (threshold : Z) (result : string * option Z)
  : Dashboard.DeviceInfo :=
  Dashboard.mkDevice result.1
    (state_name (classify result.2 threshold))
    (default 0 result.2) (default 0 result.2).

(** Modelled from the spec: the scheduler states of ./tracker, not in the
    sources. "States: Idle -> Tracking -> Stopped (terminal)". *)
Inductive Phase := Idle | Tracking | Stopped.

(** Modelled from the spec: the ProbeSample of ./tracker, not in the
    sources. One acknowledged probe of the round in flight: the device, its
    RTT and the rolling average its statistics window reports after
    insertion. *)
Record Sample := mkSample {
  s_device : string;
  s_rtt : Z;
  s_avg : Z
}.

(** Modelled from the spec: a round in flight, not in the sources: the
    strategy read when it started ("a round always reads a single consistent
    strategy value for its whole duration") and the samples received so
    far. *)
Record Round := mkRound {
  r_method : string;
  r_samples : list Sample
}.

(** Modelled from the spec: the WhatsAppTracker instance of ./tracker, not
    in the sources. It owns the contact identity, the active strategy, the
    scheduler state and the round in flight; [onUpdate] is the observer the
    server registers, identified by the jid its closure captures. *)
Record t := mkTracker {
  jid : string;
  probeMethod : string;
  phase : Phase;
  onUpdate : option string;
  round : option Round
}.

(** Modelled from the spec: the Snapshot emitted per completed round, not
    in the sources (median, threshold, device list, device count, platform
    presence; its timestamp is read by no consumer in the sources). *)
Record Snapshot := mkSnapshot {
  sn_median : Z;
  sn_threshold : Z;
  sn_devices : list Dashboard.DeviceInfo;
  sn_deviceCount : Z;
  sn_presence : option string
}.

(** Modelled from the spec: the constructor, not in the sources.
    "Idle on construction"; the default strategy is the server's default. *)
Definition new (contact : string) : t :=
  {| jid := contact; probeMethod := "delete"; phase := Idle;
     onUpdate := None; round := None |}.

(** Modelled from the spec: setProbeMethod of ./tracker, not in the
    sources. "a pure assignment of the active strategy reference". *)
Definition setProbeMethod (method : string) (tr : t) : t :=
  {| jid := jid tr; probeMethod := method; phase := phase tr;
     onUpdate := onUpdate tr; round := round tr |}.

(** The assignment [tracker.onUpdate = (data) => io.emit(...)] of
    server.ts, whose closure captures [result.jid]. *)
Definition set_onUpdate (captured : string) (tr : t) : t :=
  {| jid := jid tr; probeMethod := probeMethod tr; phase := phase tr;
     onUpdate := Some captured; round := round tr |}.

(** Modelled from the spec: startTracking of ./tracker, not in the sources.
    "startTracking() transitions to Tracking and begins the interval loop";
    Stopped is terminal. *)
Definition startTracking (tr : t) : t :=
  match phase tr with
  | Idle =>
      {| jid := jid tr; probeMethod := probeMethod tr; phase := Tracking;
         onUpdate := onUpdate tr; round := round tr |}
  | Tracking | Stopped => tr
  end.

(** Modelled from the spec: stopTracking of ./tracker, not in the sources.
    "stopTracking() transitions to Stopped, cancels the loop, and discards
    all further results". *)
Definition stopTracking (tr : t) : t :=
  {| jid := jid tr; probeMethod := probeMethod tr; phase := Stopped;
     onUpdate := onUpdate tr; round := None |}.

Definition is_tracking (tr : t) : bool :=
  match phase tr with
  | Tracking => true
  | Idle | Stopped => false
  end.

(** Modelled from the spec: what the timers and the transport deliver to a
    tracker, not in the sources: an interval tick, a delivery receipt, and
    the deadline of the round in flight. The
    spec leaves the formulas of the statistics window open, so its outputs
    (rolling average, median, threshold) and the platform presence arrive
    with the event. *)
Inductive Event :=
| Tick
| Receipt (device : string) (rtt avg : Z)
| Deadline (median threshold : Z) (presence : option string).

(** Modelled from the spec: snapshot assembly of ./tracker, not in the
    sources. The device set is "replaced wholesale each probe round from
    the devices that responded in that round"; each is classified against
    the current threshold. *)
Definition assemble (samples : list Sample) (median threshold : Z)
    (presence : option string) : Snapshot :=
  {| sn_median := median;
     sn_threshold := threshold;
     sn_devices :=
       map (fun s =>
              Dashboard.mkDevice (s_device s)
                (state_name (classify (Some (s_rtt s)) threshold))
                (s_rtt s) (s_avg s))
           samples;
     sn_deviceCount := Z.of_nat (length samples);
     sn_presence := presence |}.

(** Modelled from the spec: the probing loop of ./tracker, not in the
    sources. A tick starts a round only while Tracking and when none is in
    flight; a receipt joins the round in flight; the deadline completes it
    and yields its snapshot, exactly once. Outside Tracking every event is
    dropped: "any receipt arriving after the transition is dropped, never
    delivered to a consumer". *)
Definition step (ev : Event) (tr : t) : t * option Snapshot :=
  match phase tr with
  | Tracking =>
      match ev, round tr with
      | Tick, None =>
          ({| jid := jid tr; probeMethod := probeMethod tr;
              phase := Tracking; onUpdate := onUpdate tr;
              round := Some (mkRound (probeMethod tr) []) |}, None)
      | Tick, Some _ => (tr, None)
      | Receipt device rtt avg, Some r =>
          ({| jid := jid tr; probeMethod := probeMethod tr;
              phase := Tracking; onUpdate := onUpdate tr;
              round := Some (mkRound (r_method r)
                               (r_samples r ++ [mkSample device rtt avg])%list) |},
           None)
      | Receipt _ _ _, None => (tr, None)
      | Deadline median threshold presence, Some r =>
          ({| jid := jid tr; probeMethod := probeMethod tr;
              phase := Tracking; onUpdate := onUpdate tr;
              round := None |},
           Some (assemble (r_samples r) median threshold presence))
      | Deadline _ _ _, None => (tr, None)
      end
  | Idle | Stopped => (tr, None)
  end.

End Tracker.

(** ** The web server ([src/server.ts]) *)
Module Server.

(** The events the server emits to the dashboards. *)
Inductive Event :=
| EvError (jid : option string) (message : string)
| EvContactAdded (jid number : string)
| EvContactRemoved (jid : string)
| EvProfilePic (jid : string) (url : option string)
| EvContactName (jid name : string)
| EvProbeMethod (method : string)
| EvTrackerUpdate (update : Dashboard.Update).

(** [socket.emit] answers the requesting client; [io.emit] broadcasts to
    every connected client. *)
Inductive Emit :=
| SocketEmit (e : Event)
| IoEmit (e : Event).

(** The module-level variables [globalProbeMethod] and [trackers], and the
    heap of the [WhatsAppTracker] objects constructed so far. A registry
    value is a reference: an index into the heap. *)
Record State := mkState {
  globalProbeMethod : string;
  trackers : gmap string nat;
  heap : list Tracker.t
}.

(** The state at start-up: [globalProbeMethod = 'delete'], [new Map()]. *)
Definition init : State :=
  {| globalProbeMethod := "delete"; trackers := ∅; heap := [] |}.

(** One entry of the array [sock.onWhatsApp] resolves to. *)
Record WAResult := mkWAResult {
  wa_exists : bool;
  wa_jid : string;
  wa_notify : option string
}.

(** How [await sock.onWhatsApp(jid)] ends: it throws, or resolves to an
    array or to [undefined]. *)
Inductive OnWhatsApp :=
| Throws
| Resolves (results : option (list WAResult)).

(** How [await tracker.getProfilePicture()] ends. *)
Inductive ProfilePicture :=
| PicRejects
| PicResolves (url : option string).

(** The platform's answers to the awaits of one [add-contact] request. *)
Record Platform := mkPlatform {
  verify : OnWhatsApp;
  picture : ProfilePicture;
  nameInfo : OnWhatsApp
}.

(** [results?.[0]] *)
Definition first_result (o : OnWhatsApp) : option WAResult :=
  match o with
  | Resolves (Some (r :: _)) => Some r
  | _ => None
  end.

(** The account the verification confirmed: [result?.exists] is truthy. *)
Definition verified (o : OnWhatsApp) : option WAResult :=
  match first_result o with
  | Some r => if wa_exists r then Some r else None
  | None => None
  end.

Definition cleanNumber (number : string) : string :=
  Js.strip_non_digits number.

Definition targetJid (number : string) : string :=
  (cleanNumber number ++ "@s.whatsapp.net")%string.

(** The inner [try] of [add-contact]: the name is [contactInfo[0].notify]
    when that is truthy, the cleaned number otherwise, also on a throw. *)
Definition contactName (number : string) (o : OnWhatsApp) : string :=
  match first_result o with
  | Some r => Js.or_else (wa_notify r) (cleanNumber number)
  | None => cleanNumber number
  end.

(** The tracker object as [add-contact] leaves it: [new WhatsAppTracker(sock,
    result.jid)], [setProbeMethod(globalProbeMethod)], the assignment of
    [onUpdate], and [startTracking()]. *)
Definition start_tracker (method jid : string) : Tracker.t :=
  Tracker.startTracking
    (Tracker.set_onUpdate jid
       (Tracker.setProbeMethod method (Tracker.new jid))).

(** The state once the new tracker is allocated, [trackers.set(result.jid,
    tracker)] is done and the tracker is started. *)
Definition register (result : WAResult) (s : State) : State :=
  {| globalProbeMethod := globalProbeMethod s;
     trackers := <[wa_jid result := length (heap s)]> (trackers s);
     heap := (heap s ++ [start_tracker (globalProbeMethod s)
                           (wa_jid result)])%list |}.

(** [socket.on('add-contact', async (number) => ...)] *)
Definition add_contact (number : string) (env : Platform) (s : State)
  : State * list Emit :=
  match trackers s !! targetJid number with
  | Some _ =>
      (s, [SocketEmit (EvError (Some (targetJid number))
                         "Already tracking this contact")])
  | None =>
      match verify env with
      | Throws =>
          (s, [SocketEmit (EvError (Some (targetJid number))
                             "Verification failed")])
      | Resolves _ =>
          match verified (verify env) with
          | Some result =>
              let s' := register result s in
              match picture env with
              | PicRejects =>
                  (s', [SocketEmit (EvError (Some (targetJid number))
                                      "Verification failed")])
              | PicResolves ppUrl =>
                  (s', [SocketEmit (EvContactAdded (wa_jid result)
                                      (cleanNumber number));
                        IoEmit (EvProfilePic (wa_jid result) ppUrl);
                        IoEmit (EvContactName (wa_jid result)
                                  (contactName number (nameInfo env)))])
              end
          | None =>
              (s, [SocketEmit (EvError (Some (targetJid number))
                                 "Number not on WhatsApp")])
          end
      end
  end.

(** [socket.on('remove-contact', (jid) => ...)] *)
Definition remove_contact (jid : string) (s : State) : State * list Emit :=
  match trackers s !! jid with
  | Some tracker =>
      ({| globalProbeMethod := globalProbeMethod s;
          trackers := delete jid (trackers s);
          heap := alter Tracker.stopTracking tracker (heap s) |},
       [SocketEmit (EvContactRemoved jid)])
  | None => (s, [])
  end.

(** [for (const tracker of trackers.values()) tracker.setProbeMethod(method)].
    The calls assign the same method to distinct or equal objects, so the
    order in which the values are visited does not show. *)
Definition set_all (method : string) (refs : list nat) (h : list Tracker.t)
  : list Tracker.t :=
  foldl (fun h tracker => alter (Tracker.setProbeMethod method) tracker h)
        h refs.

(** [socket.on('set-probe-method', (method) => ...)] *)
Definition set_probe_method (method : string) (s : State)
  : State * list Emit :=
  if negb (method =? "delete")%string && negb (method =? "reaction")%string
  then (s, [SocketEmit (EvError None "Invalid probe method")])
  else
    ({| globalProbeMethod := method;
        trackers := trackers s;
        heap := set_all method (map_to_list (trackers s)).*2 (heap s) |},
     [IoEmit (EvProbeMethod method)]).

(** The object [{ jid: result.jid, ...data }] built by [tracker.onUpdate]. *)
Definition tracker_update (captured : string) (data : Tracker.Snapshot)
  : Dashboard.Update :=
  {| Dashboard.u_jid := Some captured;
     Dashboard.u_presence := Some (Tracker.sn_presence data);
     Dashboard.u_deviceCount := Some (Tracker.sn_deviceCount data);
     Dashboard.u_devices := Some (Tracker.sn_devices data);
     Dashboard.u_median := Some (Tracker.sn_median data);
     Dashboard.u_threshold := Some (Tracker.sn_threshold data) |}.

(** A timer or transport event reaches the tracker object [ref]; a
    snapshot it yields goes through the registered [onUpdate] to
    [io.emit('tracker-update', ...)]. *)
Definition tracker_event (ref : nat) (ev : Tracker.Event) (s : State)
  : State * list Emit :=
  match heap s !! ref with
  | Some tr =>
      let '(tr', out) := Tracker.step ev tr in
      ({| globalProbeMethod := globalProbeMethod s;
          trackers := trackers s;
          heap := <[ref := tr']> (heap s) |},
       match out, Tracker.onUpdate tr with
       | Some data, Some captured =>
           [IoEmit (EvTrackerUpdate (tracker_update captured data))]
       | _, _ => []
       end)
  | None => (s, [])
  end.

(** What the event loop runs, one callback at a time. *)
Inductive Request :=
| AddContact (number : string) (env : Platform)
| RemoveContact (jid : string)
| SetProbeMethod (method : string)
| TrackerEvent (ref : nat) (ev : Tracker.Event).

Definition handle (req : Request) (s : State) : State * list Emit :=
  match req with
  | AddContact number env => add_contact number env s
  | RemoveContact jid => remove_contact jid s
  | SetProbeMethod method => set_probe_method method s
  | TrackerEvent ref ev => tracker_event ref ev s
  end.

(** A run: the state reached and everything emitted, in order. *)
Fixpoint run (reqs : list Request) (s : State) : State * list Emit :=
  match reqs with
  | [] => (s, [])
  | req :: rest =>
      let '(s1, out1) := handle req s in
      let '(s2, out2) := run rest s1 in
      (s2, (out1 ++ out2)%list)
  end.

(** The Tracker objects that are running for a contact. *)
Definition live (jid : string) (s : State) : list Tracker.t :=
  List.filter
    (fun tr => (Tracker.jid tr =? jid)%string && Tracker.is_tracking tr)
    (heap s).

(** Every registry entry refers to a tracker object of the heap that was
    constructed for, and reports under, the key's jid. *)
Definition registry_ok (s : State) : Prop :=
  ∀ jid ref, trackers s !! jid = Some ref →
    ∃ tr, heap s !! ref = Some tr ∧ Tracker.jid tr = jid ∧
          Tracker.onUpdate tr = Some jid.

(** The request starts a tracker that reports under [jid]. *)
Definition starts (jid : string) (req : Request) : bool :=
  match req with
  | AddContact _ env =>
      match verified (verify env) with
      | Some result => (wa_jid result =? jid)%string
      | None => false
      end
  | _ => false
  end.

(** No tracker object that reports under [jid] is running. *)
Definition quiet (jid : string) (s : State) : Prop :=
  ∀ ref tr, heap s !! ref = Some tr →
    Tracker.onUpdate tr = Some jid → Tracker.is_tracking tr = false.

(** The tracker object at [ref] is the only running one that reports
    under [jid]. *)
Definition sole_reporter (jid : string) (ref : nat) (s : State) : Prop :=
  ∀ ref' tr, heap s !! ref' = Some tr →
    Tracker.onUpdate tr = Some jid → Tracker.is_tracking tr = true →
    ref' = ref.

(** The platform answers an add-contact request, if it confirms an
    account, with the very jid the server asked about. *)
Definition echoes (req : Request) : bool :=
  match req with
  | AddContact number env =>
      match verified (verify env) with
      | Some result => (wa_jid result =? targetJid number)%string
      | None => true
      end
  | _ => true
  end.

(** Every running tracker object is the one the registry holds for its
    contact. *)
Definition running_registered (s : State) : Prop :=
  ∀ ref tr, heap s !! ref = Some tr → Tracker.is_tracking tr = true →
    trackers s !! Tracker.jid tr = Some ref.

(** The emission is a [tracker-update] about [jid]. *)
Definition is_update_for (jid : string) (e : Emit) : bool :=
  match e with
  | IoEmit (EvTrackerUpdate u) | SocketEmit (EvTrackerUpdate u) =>
      match Dashboard.u_jid u with
      | Some j => (j =? jid)%string
      | None => false
      end
  | _ => false
  end.

End Server.

(** ** Concrete requests used to exercise the handlers *)
Module Scenario.
Import Server.

(** A number that the platform knows under a jid of its own: the account's
    canonical jid differs from the jid built from the digits typed. *)
Definition number : string := "+55 11 98765-4321".

Definition account : WAResult :=
  mkWAResult true "551187654321@s.whatsapp.net" (Some "Ana").

Definition platform : Platform :=
  mkPlatform (Resolves (Some [account])) (PicResolves None)
    (Resolves (Some [account])).

(** A number whose jid the platform returns as it was asked. *)
Definition plain_number : string := "4915112345678".

Definition plain_account : WAResult :=
  mkWAResult true "4915112345678@s.whatsapp.net" None.

Definition plain_platform : Platform :=
  mkPlatform (Resolves (Some [plain_account])) (PicResolves None)
    (Resolves (Some [plain_account])).


(** The same number requested twice. *)
Definition twice : list Request :=
  [AddContact number platform; AddContact number platform].

(** The same number requested twice, then a round of the first tracker
    object, the one the registry no longer holds, with one receipt in. *)
Definition twice_mid_round : list Request :=
  (twice ++
   [TrackerEvent 0 Tracker.Tick;
    TrackerEvent 0 (Tracker.Receipt "551187654321:0@s.whatsapp.net" 120 110)])%list.

(** The server with [plain_number] tracked and a round in flight that has
    one receipt so far. *)
Definition mid_round : list Request :=
  [AddContact plain_number plain_platform;
   TrackerEvent 0 Tracker.Tick;
   TrackerEvent 0 (Tracker.Receipt "4915112345678:0@s.whatsapp.net" 120 110)].

(** What may still arrive for that round: a late receipt and the deadline. *)
Definition late_arrivals : list Request :=
  [TrackerEvent 0 (Tracker.Receipt "4915112345678:1@s.whatsapp.net" 900 850);
   TrackerEvent 0 (Tracker.Deadline 510 400 None)].

(** The server after it accepted [plain_number]. *)
Definition tracking : State :=
  (add_contact plain_number plain_platform init).1.

End Scenario.

(** ** The connection to the platform and the greeting of a new client
    ([connectToWhatsApp] and the head of [io.on('connection')]) *)
Module Connection.

(** The server process: the control-surface state, the module-level flag
    [isWhatsAppConnected], and how often [connectToWhatsApp()] was called
    (once when the module loads). *)
Record Process := mkProcess {
  server : Server.State;
  isWhatsAppConnected : bool;
  connects : nat
}.

Definition start : Process :=
  {| server := Server.init; isWhatsAppConnected := false; connects := 1 |}.

(** What the handler reads of a [connection.update]: [connection], the
    status code [lastDisconnect?.error?.output?.statusCode] ([None] when
    any link of that chain is undefined), and [qr]. *)
Record Update := mkUpdate {
  connection : option string;
  statusCode : option Z;
  qr : option string
}.

(** What the server sends about the connection. The array of registry keys
    is kept as the set of its elements: the registry model does not keep
    the insertion order JavaScript lists them in. *)
Inductive Signal :=
| Qr (code : string)
| ConnectionOpen
| ProbeMethod (method : string)
| TrackedContacts (keys : gset string).

Inductive Emit :=
| ToSocket (sig : Signal)
| ToAll (sig : Signal).

(** [statusCode !== DisconnectReason.loggedOut]; the constant comes from the
    platform library and is a parameter here. *)
Definition shouldReconnect (loggedOut : Z) (u : Update) : bool :=
  match statusCode u with
  | Some code => negb (code =? loggedOut)
  | None => true
  end.

(** [if (qr) io.emit('qr', qr)] *)
Definition qr_emits (u : Update) : list Emit :=
  match qr u with
  | Some code => if Js.truthy code then [ToAll (Qr code)] else []
  | None => []
  end.

(** [sock.ev.on('connection.update', async (update) => ...)] *)
Definition connection_update (loggedOut : Z) (u : Update) (p : Process)
  : Process * list Emit :=
  match connection u with
  | Some c =>
      if (c =? "close")%string then
        ({| server := server p;
            isWhatsAppConnected := false;
            connects := if shouldReconnect loggedOut u
                        then S (connects p) else connects p |},
         qr_emits u)
      else if (c =? "open")%string then
        ({| server := server p;
            isWhatsAppConnected := true;
            connects := connects p |},
         (qr_emits u ++ [ToAll ConnectionOpen])%list)
      else (p, qr_emits u)
  | None => (p, qr_emits u)
  end.

(** The head of [io.on('connection', (socket) => ...)]: what a client is
    sent when it connects. *)
Definition on_connection (p : Process) : list Emit :=
  ((if isWhatsAppConnected p then [ToSocket ConnectionOpen] else []) ++
   [ToSocket (ProbeMethod (Server.globalProbeMethod (server p)));
    ToSocket (TrackedContacts (dom (Server.trackers (server p))))])%list.

(** What the process reacts to. *)
Inductive Input :=
| ConnectionUpdate (u : Update)
| ClientConnects
| Control (req : Server.Request).

Inductive Output :=
| OfConnection (e : Emit)
| OfControl (e : Server.Emit).

Definition react (loggedOut : Z) (i : Input) (p : Process)
  : Process * list Output :=
  match i with
  | ConnectionUpdate u =>
      let '(p', out) := connection_update loggedOut u p in
      (p', map OfConnection out)
  | ClientConnects => (p, map OfConnection (on_connection p))
  | Control req =>
      let '(s', out) := Server.handle req (server p) in
      ({| server := s';
          isWhatsAppConnected := isWhatsAppConnected p;
          connects := connects p |},
       map OfControl out)
  end.

Fixpoint run (loggedOut : Z) (inputs : list Input) (p : Process)
  : Process * list Output :=
  match inputs with
  | [] => (p, [])
  | i :: rest =>
      let '(p1, out1) := react loggedOut i p in
      let '(p2, out2) := run loggedOut rest p1 in
      (p2, (out1 ++ out2)%list)
  end.

(** The control requests among the inputs, in order. *)
Definition controls (inputs : list Input) : list Server.Request :=
  omap (fun i => match i with Control req => Some req | _ => None end) inputs.

(** What an input says about the connection: opened, closed, or nothing. *)
Definition transition (i : Input) : option bool :=
  match i with
  | ConnectionUpdate u =>
      match connection u with
      | Some c =>
          if (c =? "close")%string then Some false
          else if (c =? "open")%string then Some true
          else None
      | None => None
      end
  | _ => None
  end.

(** The latest transition among the inputs, [before] when there is none. *)
Definition last_transition (before : bool) (inputs : list Input) : bool :=
  foldl (fun flag i => default flag (transition i)) before inputs.

(** The input is a close that calls [connectToWhatsApp()] again. *)
Definition reconnects (loggedOut : Z) (i : Input) : bool :=
  match i with
  | ConnectionUpdate u =>
      match connection u with
      | Some c => (c =? "close")%string && shouldReconnect loggedOut u
      | None => false
      end
  | _ => false
  end.

End Connection.

(** ** The rest of the dashboard: its other state cells, what it sends, and
    how the server's events reach its handlers *)
Module Ui.

(** The [useState] cells of the component. *)
Record State := mkUi {
  inputNumber : string;
  contacts : gmap string Dashboard.ContactInfo;
  error : option string;
  privacyMode : bool;
  probeMethod : string
}.

(** The initial values of the cells. *)
Definition initial : State :=
  {| inputNumber := ""; contacts := ∅; error := None;
     privacyMode := false; probeMethod := "delete" |}.

Definition with_contacts (f : gmap string Dashboard.ContactInfo →
                              gmap string Dashboard.ContactInfo)
    (ui : State) : State :=
  {| inputNumber := inputNumber ui; contacts := f (contacts ui);
     error := error ui; privacyMode := privacyMode ui;
     probeMethod := probeMethod ui |}.

(** [onContactAdded]: the map update and [setInputNumber('')]. *)
Definition onContactAdded (jid number : string) (ui : State) : State :=
  {| inputNumber := "";
     contacts := Dashboard.onContactAdded jid number (contacts ui);
     error := error ui; privacyMode := privacyMode ui;
     probeMethod := probeMethod ui |}.

(** [onError(data)]: [setError(data.message)]; the timeout it arms is the
    event [ErrorTimeout] below. *)
Definition onError (message : string) (ui : State) : State :=
  {| inputNumber := inputNumber ui; contacts := contacts ui;
     error := Some message; privacyMode := privacyMode ui;
     probeMethod := probeMethod ui |}.

(** The callback of [setTimeout(() => setError(null), 3000)]. *)
Definition onErrorTimeout (ui : State) : State :=
  {| inputNumber := inputNumber ui; contacts := contacts ui;
     error := None; privacyMode := privacyMode ui;
     probeMethod := probeMethod ui |}.

(** [onProbeMethod(method)] *)
Definition onProbeMethod (method : string) (ui : State) : State :=
  {| inputNumber := inputNumber ui; contacts := contacts ui;
     error := error ui; privacyMode := privacyMode ui;
     probeMethod := method |}.

(** The handlers registered with [socket.on]; [now] is [Date.now()] at the
    time the event is handled. *)
Definition receive (now : Z) (e : Server.Event) (ui : State) : State :=
  match e with
  | Server.EvTrackerUpdate update =>
      with_contacts (Dashboard.onTrackerUpdate now update) ui
  | Server.EvProfilePic jid url =>
      with_contacts (Dashboard.onProfilePic jid url) ui
  | Server.EvContactName jid name =>
      with_contacts (Dashboard.onContactName jid name) ui
  | Server.EvContactAdded jid number => onContactAdded jid number ui
  | Server.EvContactRemoved jid =>
      with_contacts (Dashboard.onContactRemoved jid) ui
  | Server.EvError _ message => onError message ui
  | Server.EvProbeMethod method => onProbeMethod method ui
  end.

(** Events handled one after another; the [k]-th is handled at [clock k]. *)
Fixpoint receive_all (clock : nat → Z) (k : nat) (events : list Server.Event)
    (ui : State) : State :=
  match events with
  | [] => ui
  | e :: rest => receive_all clock (S k) rest (receive (clock k) e ui)
  end.

(** What reaches one client of what the server emits: [socket.emit] only
    the client whose request is being handled, [io.emit] every client. *)
Definition delivered (requester : bool) (emits : list Server.Emit)
  : list Server.Event :=
  omap (fun emit =>
          match emit with
          | Server.SocketEmit e => if requester then Some e else None
          | Server.IoEmit e => Some e
          end) emits.

(** What the dashboard sends to the server. *)
Inductive Outgoing :=
| SendAddContact (number : string)
| SendRemoveContact (jid : string)
| SendSetProbeMethod (method : string).

(** [handleAdd]: [if (!inputNumber) return; socket.emit('add-contact', ...)] *)
Definition handleAdd (ui : State) : list Outgoing :=
  if Js.truthy (inputNumber ui) then [SendAddContact (inputNumber ui)]
  else [].

(** [handleRemove(jid)] *)
Definition handleRemove (jid : string) : list Outgoing :=
  [SendRemoveContact jid].





(** The contacts map after a sequence of events. *)
Definition dispatch_all (events : list Dashboard.Incoming)
    (contacts : gmap string Dashboard.ContactInfo)
  : gmap string Dashboard.ContactInfo :=
  foldl (fun c ev => Dashboard.dispatch ev c) contacts events.

(** The event is neither contact-added nor contact-removed. *)
Definition passive (ev : Dashboard.Incoming) : bool :=
  match ev with
  | Dashboard.ContactAdded _ _ | Dashboard.ContactRemoved _ => false
  | _ => true
  end.

(** The update appends a chart point: it carries a median and a device. *)
Definition plots (update : Dashboard.Update) : bool :=
  match Dashboard.u_median update, Dashboard.u_devices update with
  | Some _, Some (_ :: _) => true
  | _, _ => false
  end.

End Ui.

(** ** Vocabulary for the server's runs *)
Module Runs.
Import Server.

(** The method is one the control surface accepts. *)
Definition valid_method (method : string) : bool :=
  (method =? "delete")%string || (method =? "reaction")%string.

(** The method of the last accepted set-probe-method request among
    [reqs], [before] when there is none. *)
Definition last_accepted (before : string) (reqs : list Request) : string :=
  foldl (fun m req =>
           match req with
           | SetProbeMethod method => if valid_method method then method else m
           | _ => m
           end) before reqs.

(** Who may receive an event of this kind: errors, contact-added and
    contact-removed go to the requester alone, everything else to all. *)
Definition well_routed (emit : Emit) : bool :=
  match emit with
  | SocketEmit (EvError _ _) | SocketEmit (EvContactAdded _ _)
  | SocketEmit (EvContactRemoved _) => true
  | IoEmit (EvProfilePic _ _) | IoEmit (EvContactName _ _)
  | IoEmit (EvProbeMethod _) | IoEmit (EvTrackerUpdate _) => true
  | _ => false
  end.

(** Every registered tracker probes with the global probe method. *)
Definition follows_global (s : State) : Prop :=
  ∀ jid ref, trackers s !! jid = Some ref →
    ∃ tr, heap s !! ref = Some tr ∧
          Tracker.probeMethod tr = globalProbeMethod s.

(** All characters of the string are digits. *)
Fixpoint all_digits (s : string) : bool :=
  match s with
  | EmptyString => true
  | String c s' => Js.is_digit c && all_digits s'
  end.

End Runs.

(** * Properties *)

(** ** The dashboard's contact map *)
Section DashboardContacts.
Import Dashboard.
Implicit Types (contacts : gmap string ContactInfo) (jid : string).

(** Overwriting an entry that exists creates and removes nothing. *)
Lemma overwrite_keeps_entries contacts jid c c' j :
  contacts !! jid = Some c →
  is_Some (<[jid := c']> contacts !! j) ↔ is_Some (contacts !! j).
Proof.
  intros Hc. destruct (decide (jid = j)) as [->|Hne].
  - rewrite lookup_insert_eq, Hc. split; eauto.
  - by rewrite lookup_insert_ne.
Qed.

Lemma onTrackerUpdate_entries now update contacts j :
  is_Some (onTrackerUpdate now update contacts !! j) ↔ is_Some (contacts !! j).
Proof.
  unfold onTrackerUpdate.
  destruct (u_jid update) as [jid|]; [|done].
  destruct (Js.truthy jid); [|done].
  destruct (contacts !! jid) as [c|] eqn:Hc; [|done].
  by eapply overwrite_keeps_entries.
Qed.

Lemma onProfilePic_entries jid url contacts j :
  is_Some (onProfilePic jid url contacts !! j) ↔ is_Some (contacts !! j).
Proof.
  unfold onProfilePic.
  destruct (contacts !! jid) as [c|] eqn:Hc; [|done].
  by eapply overwrite_keeps_entries.
Qed.

Lemma onContactName_entries jid name contacts j :
  is_Some (onContactName jid name contacts !! j) ↔ is_Some (contacts !! j).
Proof.
  unfold onContactName.
  destruct (contacts !! jid) as [c|] eqn:Hc; [|done].
  by eapply overwrite_keeps_entries.
Qed.

(** C10. In the dashboard a contact entry is created only by a
    contact-added event and removed only by a contact-removed event, and a
    tracker-update, profile-pic or contact-name event about a jid that has
    no entry leaves the contacts map as it is. *)
Theorem dashboard_entries_lifecycle contacts :
  (∀ ev jid, contacts !! jid = None → is_Some (dispatch ev contacts !! jid) →
     ∃ number, ev = ContactAdded jid number) ∧
  (∀ ev jid, is_Some (contacts !! jid) → dispatch ev contacts !! jid = None →
     ev = ContactRemoved jid) ∧
  (∀ now update jid, u_jid update = Some jid → contacts !! jid = None →
     onTrackerUpdate now update contacts = contacts) ∧
  (∀ jid url, contacts !! jid = None →
     onProfilePic jid url contacts = contacts) ∧
  (∀ jid name, contacts !! jid = None →
     onContactName jid name contacts = contacts).
Proof.
  repeat split.
  - intros ev jid Hnone Hsome. destruct ev as [now u|k url|k name|k number|k]; simpl in Hsome.
    + apply onTrackerUpdate_entries in Hsome. rewrite Hnone in Hsome. by destruct Hsome.
    + apply onProfilePic_entries in Hsome. rewrite Hnone in Hsome. by destruct Hsome.
    + apply onContactName_entries in Hsome. rewrite Hnone in Hsome. by destruct Hsome.
    + unfold onContactAdded in Hsome. destruct (decide (k = jid)) as [->|Hne]; [eauto|].
      rewrite lookup_insert_ne, Hnone in Hsome by done. by destruct Hsome.
    + unfold onContactRemoved in Hsome. apply lookup_delete_is_Some in Hsome.
      destruct Hsome as [_ Hsome]. rewrite Hnone in Hsome. by destruct Hsome.
  - intros ev jid Hsome Hnone. destruct ev as [now u|k url|k name|k number|k]; simpl in Hnone.
    + apply (proj2 (onTrackerUpdate_entries now u contacts jid)) in Hsome.
      rewrite Hnone in Hsome. by destruct Hsome.
    + apply (proj2 (onProfilePic_entries k url contacts jid)) in Hsome.
      rewrite Hnone in Hsome. by destruct Hsome.
    + apply (proj2 (onContactName_entries k name contacts jid)) in Hsome.
      rewrite Hnone in Hsome. by destruct Hsome.
    + unfold onContactAdded in Hnone. apply lookup_insert_None in Hnone.
      destruct Hnone as [Hnone _]. rewrite Hnone in Hsome. by destruct Hsome.
    + unfold onContactRemoved in Hnone. apply lookup_delete_None in Hnone.
      destruct Hnone as [->|Hnone]; [done|]. rewrite Hnone in Hsome. by destruct Hsome.
  - intros now update jid Hjid Hnone. unfold onTrackerUpdate.
    rewrite Hjid, Hnone. by destruct (Js.truthy jid).
  - intros jid url Hnone. unfold onProfilePic. by rewrite Hnone.
  - intros jid name Hnone. unfold onContactName. by rewrite Hnone.
Qed.

(** The theorem at an update about a contact the dashboard never added. *)
Lemma dashboard_entries_lifecycle_witness :
  onTrackerUpdate 1000
    (mkUpdate (Some "4915@s.whatsapp.net") None (Some 1)
       (Some [mkDevice "4915:0" "Online" 120 130]) (Some 120) (Some 400))
    ∅ = ∅.
Proof.
  destruct (dashboard_entries_lifecycle ∅) as (_ & _ & Hupdate & _ & _).
  by apply (Hupdate 1000 _ "4915@s.whatsapp.net").
Defined.

End DashboardContacts.

(** ** Device states in the dashboard *)
Section DashboardStates.
Import Dashboard.

Lemma includes_truthy s sub :
  Js.truthy sub = true → Js.includes s sub = true → Js.truthy s = true.
Proof. destruct s, sub; simpl; intros; done. Qed.

(** The headline is the state of the first device that mentions "Online",
    and that of the first device when none does. *)
Lemma headline_state_find d0 rest :
  headline_state (d0 :: rest) =
    Some match List.find (fun d => Js.includes (di_state d) "Online")
                 (d0 :: rest) with
         | Some d => di_state d
         | None => di_state d0
         end.
Proof.
  unfold headline_state.
  destruct (List.find _ _) as [d|] eqn:Hfind; simpl; [|done].
  apply find_some in Hfind as [_ Hd].
  by rewrite (includes_truthy _ "Online" eq_refl Hd).
Qed.

Lemma headline_state_origin ds st :
  headline_state ds = Some st →
  ∃ d, d ∈ ds ∧ st = di_state d ∧
       (Js.includes (di_state d) "Online" = true ∨ head ds = Some d).
Proof.
  destruct ds as [|d0 rest]; [done|].
  rewrite headline_state_find.
  destruct (List.find _ _) as [d|] eqn:Hfind; intros [= <-].
  - apply find_some in Hfind as [Hin Hd]. exists d.
    split; [by apply list_elem_of_In|]. eauto.
  - exists d0. split; [left|]. eauto.
Qed.

Lemma newDataPoint_origin now data p :
  newDataPoint now data = Some p →
  ∃ ds d, u_devices data = Some ds ∧ d ∈ ds ∧ td_state p = di_state d ∧
          (Js.includes (di_state d) "Online" = true ∨ head ds = Some d).
Proof.
  unfold newDataPoint.
  destruct (u_median data) as [median|]; [|done].
  destruct (u_devices data) as [[|d0 rest]|]; [done| |done].
  destruct (headline_state (d0 :: rest)) as [st|] eqn:Hst; [|done].
  intros [= <-]. simpl.
  apply headline_state_origin in Hst as (d & Hin & -> & Hd). eauto 10.
Qed.

(** The first element that satisfies [f], with none before it that does;
    or no element that does. *)
Lemma find_first {A} (f : A → bool) (l : list A) :
  match List.find f l with
  | Some d =>
      ∃ pre post, l = (pre ++ d :: post)%list ∧
                  (∀ x, x ∈ pre → f x = false) ∧ f d = true
  | None => ∀ x, x ∈ l → f x = false
  end.
Proof.
  induction l as [|a l IH]; simpl.
  - by intros x ?%elem_of_nil.
  - destruct (f a) eqn:Ha.
    + exists [], l. repeat split; [|done]. by intros x ?%elem_of_nil.
    + destruct (List.find f l) as [d|].
      * destruct IH as (pre & post & -> & Hpre & Hd).
        exists (a :: pre), post. repeat split; [|done].
        intros x [->|Hx]%elem_of_cons; [done|by apply Hpre].
      * intros x [->|Hx]%elem_of_cons; [done|by apply IH].
Qed.

(** C2, as the code has it. Device states are free-form strings that are
    passed through: on a tracker-update for a known contact the dashboard
    stores the device list of the update as it comes. When the update
    carries a median and at least one device, exactly one chart point is
    appended, with RTT and average of the first device, and its state is
    picked by text matching: it is the state string of the first device of
    the list whose state contains "Online" as a substring, and the state of
    the first device of the list when no device's state contains it.
    Otherwise no point is appended. So when every device state of the
    update is one of Online, Offline, Unknown, the state of the new point
    is too. *)
Theorem tracker_update_states_pass_through now update contacts jid contact :
  u_jid update = Some jid → Js.truthy jid = true →
  contacts !! jid = Some contact →
  ∃ contact',
    onTrackerUpdate now update contacts !! jid = Some contact' ∧
    ci_devices contact' = default (ci_devices contact) (u_devices update) ∧
    match u_median update, u_devices update with
    | Some median, Some (d0 :: rest) =>
        ∃ d,
          ci_data contact'
          = (ci_data contact ++
             [mkPoint (di_rtt d0) (di_avg d0) median (u_threshold update)
                (di_state d) now])%list ∧
          ((∃ pre post,
              d0 :: rest = (pre ++ d :: post)%list ∧
              (∀ d', d' ∈ pre → Js.includes (di_state d') "Online" = false) ∧
              Js.includes (di_state d) "Online" = true) ∨
           ((∀ d', d' ∈ d0 :: rest →
               Js.includes (di_state d') "Online" = false) ∧
            d = d0)) ∧
          ((∀ d', d' ∈ d0 :: rest →
              Tracker.is_state_name (di_state d') = true) →
           Tracker.is_state_name (di_state d) = true)
    | _, _ => ci_data contact' = ci_data contact
    end.
Proof.
  intros Hjid Htruthy Hc. exists (updateContact now update contact).
  split; [|split].
  - unfold onTrackerUpdate. by rewrite Hjid, Htruthy, Hc, lookup_insert_eq.
  - simpl. by destruct (u_devices update).
  - simpl. unfold newDataPoint.
    destruct (u_median update) as [median|]; [|done].
    destruct (u_devices update) as [[|d0 rest]|]; [done| |done].
    rewrite headline_state_find.
    pose proof (find_first (fun d => Js.includes (di_state d) "Online")
                  (d0 :: rest)) as Hfirst.
    destruct (List.find _ (d0 :: rest)) as [d|].
    + destruct Hfirst as (pre & post & Hsplit & Hpre & Hd).
      exists d. split; [done|]. split; [left; eauto|].
      intros Hall. apply Hall. rewrite Hsplit.
      apply elem_of_app. right. by left.
    + exists d0. split; [done|]. split; [by right|].
      intros Hall. apply Hall. by left.
Qed.

(** The theorem at a contact that was just added and an update whose
    second device is the first to be Online: the point gets its state. *)
Lemma tracker_update_states_pass_through_witness :
  ∃ contact',
    onTrackerUpdate 1000
      (mkUpdate (Some "4915@s.whatsapp.net") None (Some 2)
         (Some [mkDevice "4915:0" "Offline" 900 700;
                mkDevice "4915:1" "Online" 120 130])
         (Some 510) (Some 400))
      (onContactAdded "4915@s.whatsapp.net" "4915" ∅)
      !! "4915@s.whatsapp.net" = Some contact' ∧
    ci_devices contact' = [mkDevice "4915:0" "Offline" 900 700;
                           mkDevice "4915:1" "Online" 120 130] ∧
    ci_data contact' = [mkPoint 900 700 510 (Some 400) "Online" 1000].
Proof.
  destruct (tracker_update_states_pass_through 1000
              (mkUpdate (Some "4915@s.whatsapp.net") None (Some 2)
                 (Some [mkDevice "4915:0" "Offline" 900 700;
                        mkDevice "4915:1" "Online" 120 130])
                 (Some 510) (Some 400))
              (onContactAdded "4915@s.whatsapp.net" "4915" ∅)
              "4915@s.whatsapp.net"
              (mkContact "4915@s.whatsapp.net" "4915" "4915" [] [] 0 None None))
    as (contact' & Hlookup & Hdevices & d & Hdata & Hrule & _);
    [reflexivity | reflexivity | vm_compute; reflexivity |].
  exists contact'. split; [exact Hlookup|]. split; [exact Hdevices|].
  rewrite Hdata. simpl.
  destruct Hrule as [(pre & post & Hsplit & Hpre & Hd)|[Hnone _]].
  - destruct pre as [|p0 [|p1 pre]]; simpl in Hsplit.
    + injection Hsplit as <- _. discriminate Hd.
    + by injection Hsplit as _ <- _.
    + injection Hsplit as _ _ Hrest. by destruct pre.
  - discriminate (Hnone (mkDevice "4915:1" "Online" 120 130)).
    right. left.
Defined.

(** C2 fails as stated: the dashboard accepts a state outside the three
    values and picks the headline by substring. Of two devices "Standby" and
    "Probably Online" the chart point gets the state of the second, because
    it contains "Online"; that string is none of Online, Offline, Unknown. *)
Lemma headline_by_substring_outside_enum :
  ci_data <$>
    (onTrackerUpdate 1000
       (mkUpdate (Some "4915@s.whatsapp.net") None (Some 2)
          (Some [mkDevice "4915:0" "Standby" 250 240;
                 mkDevice "4915:1" "Probably Online" 90 95])
          (Some 170) (Some 200))
       (onContactAdded "4915@s.whatsapp.net" "4915" ∅)
       !! "4915@s.whatsapp.net")
  = Some [mkPoint 250 240 170 (Some 200) "Probably Online" 1000] ∧
  Tracker.is_state_name "Probably Online" = false ∧
  Js.includes "Probably Online" "Online" = true.
Proof. vm_compute. done. Qed.

Lemma includes_state_name st :
  Js.includes (Tracker.state_name st) "Online" = Tracker.is_online st.
Proof. by destruct st. Qed.

Lemma find_online_device threshold results :
  di_state <$>
    List.find (fun d => Js.includes (di_state d) "Online")
      (map (Tracker.device_of threshold) results)
  = if existsb (fun r => Tracker.is_online (Tracker.classify r.2 threshold))
         results
    then Some "Online" else None.
Proof.
  induction results as [|r rest IH]; [done|].
  cbn [map List.find existsb].
  replace (di_state (Tracker.device_of threshold r))
    with (Tracker.state_name (Tracker.classify r.2 threshold)) by done.
  rewrite includes_state_name.
  destruct (Tracker.classify r.2 threshold) eqn:Hst; simpl;
    [by unfold Tracker.device_of; rewrite Hst | apply IH | apply IH].
Qed.

(** C7, as the code has it. The classifier gives Unknown without a sample,
    Online for a sample with RTT <= threshold and Offline for one above it.
    The headline state the dashboard stores with a chart point is Online if
    any device of the update is Online, and otherwise the state of the first
    device of the list, whatever the others are; an update without devices
    appends no chart point, so it records no headline state. *)
Theorem headline_online_or_first_device threshold
    (r0 : string * option Z) (rest : list (string * option Z)) :
  (Tracker.classify None threshold = Tracker.Unknown ∧
   (∀ rtt, rtt ≤ threshold →
      Tracker.classify (Some rtt) threshold = Tracker.Online) ∧
   (∀ rtt, threshold < rtt →
      Tracker.classify (Some rtt) threshold = Tracker.Offline)) ∧
  headline_state (map (Tracker.device_of threshold) (r0 :: rest)) =
    Some (Tracker.state_name
            (if existsb
                  (fun r => Tracker.is_online (Tracker.classify r.2 threshold))
                  (r0 :: rest)
             then Tracker.Online
             else Tracker.classify r0.2 threshold)) ∧
  (∀ now data, u_devices data = Some [] → newDataPoint now data = None).
Proof.
  split; [|split].
  - unfold Tracker.classify. repeat split; intros rtt Hrtt.
    + by rewrite (proj2 (Z.leb_le _ _) Hrtt).
    + by rewrite (proj2 (Z.leb_gt _ _) Hrtt).
  - unfold headline_state. change (map ?f (r0 :: rest)) with (f r0 :: map f rest).
    change (Tracker.device_of threshold r0 :: map (Tracker.device_of threshold) rest)
      with (map (Tracker.device_of threshold) (r0 :: rest)).
    rewrite find_online_device.
    by destruct (existsb _ _).
  - intros now data Hds. unfold newDataPoint. rewrite Hds.
    by destruct (u_median data).
Qed.

(** C7 fails as stated. With threshold 400, a first device without a sample
    (Unknown) and a second device at 900 ms (Offline), the aggregate as the
    specification words it is Offline, since a device reported this round;
    the dashboard's headline is Unknown, the state of the first device. And
    for an update without devices, where the specified aggregate is Unknown,
    the dashboard appends no chart point at all. *)
Lemma headline_unknown_although_device_reported :
  Tracker.state_name
    (Tracker.aggregate_spec [None; Some 900] 400) = "Offline" ∧
  headline_state
    (map (Tracker.device_of 400) [("4915:0", None); ("4915:1", Some 900)])
  = Some "Unknown" ∧
  Tracker.state_name (Tracker.aggregate_spec [] 400) = "Unknown" ∧
  newDataPoint 1000 (mkUpdate (Some "4915@s.whatsapp.net") None (Some 0)
                       (Some []) (Some 0) (Some 400)) = None.
Proof. vm_compute. done. Qed.

(** The scenario of the specification: two devices at 120 ms and 900 ms
    against a threshold of 400 ms. *)
Example two_device_scenario :
  map di_state
    (map (Tracker.device_of 400) [("4915:0", Some 120); ("4915:1", Some 900)])
  = ["Online"; "Offline"] ∧
  headline_state
    (map (Tracker.device_of 400) [("4915:0", Some 120); ("4915:1", Some 900)])
  = Some "Online".
Proof. vm_compute. done. Qed.

End DashboardStates.

(** ** The control surface of the server *)
Section ControlSurface.
Import Server.
Implicit Types (s : State) (jid method number : string) (ref : nat).

Lemma setProbeMethod_idemp method (tr : Tracker.t) :
  Tracker.setProbeMethod method (Tracker.setProbeMethod method tr)
  = Tracker.setProbeMethod method tr.
Proof. done. Qed.

(** The loop over the registry's values assigns the method to exactly the
    tracker objects it visits. *)
Lemma set_all_lookup method (refs : list nat) (h : list Tracker.t) ref :
  set_all method refs h !! ref =
    if decide (ref ∈ refs) then Tracker.setProbeMethod method <$> h !! ref
    else h !! ref.
Proof.
  revert h. induction refs as [|r refs IH]; intros h; [done|].
  change (set_all method (r :: refs) h)
    with (set_all method refs (alter (Tracker.setProbeMethod method) r h)).
  rewrite IH. destruct (decide (r = ref)) as [->|Hne].
  - rewrite list_lookup_alter_eq.
    rewrite (decide_True (P := ref ∈ ref :: refs)) by apply list_elem_of_here.
    by destruct (decide (ref ∈ refs)), (h !! ref).
  - rewrite list_lookup_alter_ne by done.
    destruct (decide (ref ∈ refs)) as [Hin|Hnin].
    + by rewrite decide_True by (by apply list_elem_of_further).
    + rewrite decide_False; [done|].
      intros [Heq|Hin]%elem_of_cons; [by apply Hne | by apply Hnin].
Qed.

Lemma set_all_length method (refs : list nat) (h : list Tracker.t) :
  length (set_all method refs h) = length h.
Proof.
  revert h. induction refs as [|r refs IH]; intros h; [done|].
  change (set_all method (r :: refs) h)
    with (set_all method refs (alter (Tracker.setProbeMethod method) r h)).
  by rewrite IH, length_alter.
Qed.

Lemma registry_values s ref :
  ref ∈ (map_to_list (trackers s)).*2 ↔ ∃ jid, trackers s !! jid = Some ref.
Proof.
  rewrite list_elem_of_fmap. split.
  - intros ([jid r] & -> & Hin). exists jid. by apply elem_of_map_to_list.
  - intros (jid & Hjid). exists (jid, ref). split; [done|].
    by apply elem_of_map_to_list.
Qed.

(** C3. A set-probe-method request whose method is neither delete nor
    reaction is answered with an error to the requester and changes nothing:
    the global probe method, the registry and every tracker stay as they
    were. *)
Theorem invalid_probe_method_rejected method s :
  method ≠ "delete" → method ≠ "reaction" →
  set_probe_method method s
  = (s, [SocketEmit (EvError None "Invalid probe method")]).
Proof.
  intros Hd Hr. unfold set_probe_method.
  apply String.eqb_neq in Hd, Hr. by rewrite Hd, Hr.
Qed.

Lemma invalid_probe_method_rejected_witness :
  set_probe_method "typing" init
  = (init, [SocketEmit (EvError None "Invalid probe method")]).
Proof. apply invalid_probe_method_rejected; discriminate. Defined.

(** C4. A set-probe-method request with method delete or reaction sets the
    global probe method to it, applies setProbeMethod(method) to every
    tracker of the registry and to no other object, and broadcasts the new
    method to all clients. *)
Theorem valid_probe_method_applied method s :
  method = "delete" ∨ method = "reaction" →
  ∃ s',
    set_probe_method method s = (s', [IoEmit (EvProbeMethod method)]) ∧
    globalProbeMethod s' = method ∧
    trackers s' = trackers s ∧
    length (heap s') = length (heap s) ∧
    (∀ jid ref, trackers s !! jid = Some ref →
       heap s' !! ref = Tracker.setProbeMethod method <$> heap s !! ref) ∧
    (∀ ref, (∀ jid, trackers s !! jid ≠ Some ref) →
       heap s' !! ref = heap s !! ref).
Proof.
  intros Hm. unfold set_probe_method.
  assert (negb (method =? "delete")%string && negb (method =? "reaction")%string
          = false) as ->.
  { destruct Hm as [-> | ->]; reflexivity. }
  eexists. split; [reflexivity|]. simpl.
  repeat split.
  - apply set_all_length.
  - intros jid ref Hjid. rewrite set_all_lookup.
    rewrite decide_True; [done|]. apply registry_values. eauto.
  - intros ref Hnone. rewrite set_all_lookup.
    rewrite decide_False; [done|]. rewrite registry_values.
    intros [jid Hjid]. by eapply Hnone.
Qed.

(** C9. A remove-contact request for a jid that is not in the registry
    leaves the state as it is and emits nothing, neither an error nor a
    contact-removed event. *)
Theorem remove_unknown_contact_silent jid s :
  trackers s !! jid = None → remove_contact jid s = (s, []).
Proof. intros Hnone. unfold remove_contact. by rewrite Hnone. Qed.

Lemma remove_unknown_contact_silent_witness :
  remove_contact "4915@s.whatsapp.net" init = (init, []).
Proof. apply remove_unknown_contact_silent. reflexivity. Defined.

(** C8. For a tracked contact, the first remove-contact stops its tracker,
    drops it from the registry and emits one contact-removed; a second
    remove-contact right after it is a no-op: the state, registry included,
    is unchanged and nothing is emitted, neither an error nor a second
    contact-removed. *)
Theorem remove_contact_twice jid s ref :
  trackers s !! jid = Some ref →
  ∃ s1,
    remove_contact jid s = (s1, [SocketEmit (EvContactRemoved jid)]) ∧
    trackers s1 = delete jid (trackers s) ∧
    heap s1 = alter Tracker.stopTracking ref (heap s) ∧
    remove_contact jid s1 = (s1, []) ∧
    run [RemoveContact jid; RemoveContact jid] s
    = (s1, [SocketEmit (EvContactRemoved jid)]).
Proof.
  intros Hjid.
  assert (∃ s1, remove_contact jid s = (s1, [SocketEmit (EvContactRemoved jid)])
                ∧ trackers s1 = delete jid (trackers s)
                ∧ heap s1 = alter Tracker.stopTracking ref (heap s))
    as (s1 & Hfirst & Hreg & Hheap).
  { unfold remove_contact. rewrite Hjid. eauto. }
  assert (remove_contact jid s1 = (s1, [])) as Hsecond.
  { unfold remove_contact. by rewrite Hreg, lookup_delete_eq. }
  exists s1. repeat split; try done.
  simpl. by rewrite Hfirst, Hsecond.
Qed.


Lemma valid_probe_method_applied_witness :
  ∃ s',
    set_probe_method "reaction" Scenario.tracking
    = (s', [IoEmit (EvProbeMethod "reaction")]) ∧
    globalProbeMethod s' = "reaction" ∧
    (Tracker.probeMethod <$> heap s' !! 0%nat) = Some "reaction".
Proof.
  destruct (valid_probe_method_applied "reaction" Scenario.tracking)
    as (s' & Hrun & Hglobal & _ & _ & Hreg & _); [by right|].
  exists s'. split; [exact Hrun|]. split; [exact Hglobal|].
  rewrite (Hreg "4915112345678@s.whatsapp.net" 0%nat);
    vm_compute; reflexivity.
Defined.

Lemma remove_contact_twice_witness :
  ∃ s1,
    run [RemoveContact "4915112345678@s.whatsapp.net";
         RemoveContact "4915112345678@s.whatsapp.net"] Scenario.tracking
    = (s1, [SocketEmit (EvContactRemoved "4915112345678@s.whatsapp.net")]) ∧
    remove_contact "4915112345678@s.whatsapp.net" s1 = (s1, []).
Proof.
  destruct (remove_contact_twice "4915112345678@s.whatsapp.net"
              Scenario.tracking 0%nat)
    as (s1 & _ & _ & _ & Hsecond & Hrun); [vm_compute; reflexivity|].
  exists s1. split; [exact Hrun | exact Hsecond].
Defined.


End ControlSurface.

(** ** Tracker objects over a run of the server *)
Section Lifecycle.
Import Server.
Implicit Types (s : State) (jid : string) (ref : nat) (tr : Tracker.t).

(** The probing loop never changes who a tracker is, whom it reports to,
    or its scheduler state. *)
Lemma step_fields ev tr :
  Tracker.jid (Tracker.step ev tr).1 = Tracker.jid tr ∧
  Tracker.onUpdate (Tracker.step ev tr).1 = Tracker.onUpdate tr ∧
  Tracker.phase (Tracker.step ev tr).1 = Tracker.phase tr.
Proof.
  unfold Tracker.step.
  destruct (Tracker.phase tr) eqn:Hphase; [done| |done].
  destruct ev, (Tracker.round tr); simpl; auto.
Qed.

(** A snapshot comes only out of a tracker that is tracking. *)
Lemma step_silent ev tr :
  Tracker.is_tracking tr = false → Tracker.step ev tr = (tr, None).
Proof.
  unfold Tracker.is_tracking, Tracker.step.
  by destruct (Tracker.phase tr).
Qed.

(** An add-contact request leaves the state alone or registers one new
    tracker for the account the verification confirmed. *)
Lemma add_contact_state number env s :
  (add_contact number env s).1 = s ∨
  ∃ result, verified (verify env) = Some result ∧
            trackers s !! targetJid number = None ∧
            (add_contact number env s).1 = register result s.
Proof.
  unfold add_contact.
  destruct (trackers s !! targetJid number); [by left|].
  destruct (verify env) eqn:Hverify; [by left|].
  destruct (verified (Resolves results)) as [result|]; [|by left].
  right. exists result. by destruct (picture env).
Qed.

(** What a request does to the tracker object at one reference: nothing,
    a change of strategy, a stop, or a step of its loop. *)
Lemma handle_heap req s ref tr :
  heap s !! ref = Some tr →
  ∃ tr', heap (handle req s).1 !! ref = Some tr' ∧
    Tracker.jid tr' = Tracker.jid tr ∧
    Tracker.onUpdate tr' = Tracker.onUpdate tr ∧
    (Tracker.is_tracking tr = false → Tracker.is_tracking tr' = false) ∧
    (Tracker.phase tr = Tracker.Stopped → Tracker.phase tr' = Tracker.Stopped).
Proof.
  intros Href. destruct req as [number env|jid|method|ref' ev]; simpl.
  - destruct (add_contact_state number env s) as [->|(result & _ & _ & ->)];
      [by exists tr|].
    exists tr. simpl. rewrite lookup_app_l by (by eapply lookup_lt_Some). done.
  - unfold remove_contact. destruct (trackers s !! jid) as [r|]; simpl;
      [|by exists tr].
    rewrite list_lookup_alter.
    case_decide; subst; rewrite Href; simpl;
      (eexists; split; [done|]); repeat split; done.
  - unfold set_probe_method. destruct (_ && _); simpl; [by exists tr|].
    rewrite set_all_lookup, Href.
    case_decide; simpl; (eexists; split; [done|]); repeat split; done.
  - unfold tracker_event. destruct (heap s !! ref') as [tr0|] eqn:Href';
      [|by exists tr].
    destruct (Tracker.step ev tr0) as [tr1 out] eqn:Hstep. simpl.
    destruct (decide (ref' = ref)) as [->|Hne].
    + rewrite list_lookup_insert_eq by (by eapply lookup_lt_Some).
      assert (tr0 = tr) as -> by congruence.
      destruct (step_fields ev tr) as (Hjid & Hobs & Hphase).
      rewrite Hstep in Hjid, Hobs, Hphase. simpl in *.
      exists tr1. unfold Tracker.is_tracking. rewrite Hphase. done.
    + rewrite list_lookup_insert_ne by done. by exists tr.
Qed.

Lemma run_heap reqs s ref tr :
  heap s !! ref = Some tr →
  ∃ tr', heap (run reqs s).1 !! ref = Some tr' ∧
    Tracker.jid tr' = Tracker.jid tr ∧
    Tracker.onUpdate tr' = Tracker.onUpdate tr ∧
    (Tracker.phase tr = Tracker.Stopped → Tracker.phase tr' = Tracker.Stopped).
Proof.
  revert s tr. induction reqs as [|req rest IH]; intros s tr Href; simpl.
  - by exists tr.
  - destruct (handle_heap req s ref tr Href) as (tr1 & H1 & Hj1 & Ho1 & _ & Hp1).
    destruct (handle req s) as [s1 out1]. simpl in H1.
    destruct (IH s1 tr1 H1) as (tr2 & H2 & Hj2 & Ho2 & Hp2).
    destruct (run rest s1) as [s2 out2]. simpl in *.
    exists tr2. repeat split; [done|congruence|congruence|auto].
Qed.

(** Every run keeps the registry pointing at tracker objects that were
    constructed for, and report under, the key they are stored under. *)
Lemma handle_registry_ok req s : registry_ok s → registry_ok (handle req s).1.
Proof.
  intros Hok jid ref Hjid.
  assert (trackers s !! jid = Some ref ∨
          ∃ tr, heap (handle req s).1 !! ref = Some tr ∧
                Tracker.jid tr = jid ∧ Tracker.onUpdate tr = Some jid)
    as [Hold|Hnew]; [| |done].
  - destruct req as [number env|k|method|ref' ev]; simpl in *.
    + destruct (add_contact_state number env s) as [Heq|(result & _ & _ & Heq)];
        rewrite Heq in *; [by left|]. simpl in Hjid.
      apply lookup_insert_Some in Hjid as [[<- <-]|[_ Hold]]; [right|by left].
      eexists. simpl. by rewrite list_lookup_middle.
    + left. unfold remove_contact in Hjid.
      destruct (trackers s !! k); simpl in Hjid; [|done].
      by apply lookup_delete_Some in Hjid as [_ Hold].
    + left. unfold set_probe_method in Hjid. by destruct (_ && _).
    + left. unfold tracker_event in Hjid. destruct (heap s !! ref'); [|done].
      by destruct (Tracker.step ev t).
  - destruct (Hok jid ref Hold) as (tr & Href & Hj & Ho).
    destruct (handle_heap req s ref tr Href) as (tr' & Href' & Hj' & Ho' & _).
    exists tr'. repeat split; [done|congruence|congruence].
Qed.

Lemma run_registry_ok reqs s : registry_ok s → registry_ok (run reqs s).1.
Proof.
  revert s. induction reqs as [|req rest IH]; intros s Hok; [done|].
  simpl. pose proof (handle_registry_ok req s Hok) as H1.
  destruct (handle req s) as [s1 out1].
  specialize (IH s1 H1). by destruct (run rest s1).
Qed.

Lemma init_registry_ok : registry_ok init.
Proof. intros jid ref Hjid. simpl in Hjid. by rewrite lookup_empty in Hjid. Qed.

(** A tracker object that a request brings into the heap is the one an
    add-contact request starts for the verified account. *)
Lemma handle_heap_new req s ref tr :
  heap s !! ref = None → heap (handle req s).1 !! ref = Some tr →
  ∃ number env result,
    req = AddContact number env ∧ verified (verify env) = Some result ∧
    tr = start_tracker (globalProbeMethod s) (wa_jid result).
Proof.
  intros Hnone Hnew. destruct req as [number env|k|method|ref' ev]; simpl in Hnew.
  - destruct (add_contact_state number env s) as [Heq|(result & Hres & _ & Heq)];
      rewrite Heq in Hnew; [congruence|]. simpl in Hnew.
    apply lookup_app_Some in Hnew as [Hold|[_ Hlast]]; [congruence|].
    apply list_lookup_singleton_Some in Hlast as [_ <-].
    by exists number, env, result.
  - unfold remove_contact in Hnew.
    destruct (trackers s !! k); simpl in Hnew; [|congruence].
    rewrite list_lookup_alter in Hnew.
    case_decide; subst; rewrite Hnone in Hnew; done.
  - unfold set_probe_method in Hnew.
    destruct (_ && _); simpl in Hnew; [congruence|].
    rewrite set_all_lookup, Hnone in Hnew. by case_decide.
  - unfold tracker_event in Hnew.
    destruct (heap s !! ref') as [tr0|] eqn:Href'; simpl in Hnew;
      [|congruence].
    destruct (Tracker.step ev tr0). simpl in Hnew.
    assert (ref' ≠ ref) as Hne by (intros Heq; subst; congruence).
    rewrite list_lookup_insert_ne in Hnew by done. congruence.
Qed.

(** While no tracker reporting under [jid] is running, a request that
    starts none keeps it so and emits no update about [jid]. *)
Lemma handle_quiet req s jid :
  quiet jid s → starts jid req = false →
  quiet jid (handle req s).1 ∧
  Forall (fun e => is_update_for jid e = false) (handle req s).2.
Proof.
  intros Hquiet Hstarts. split.
  - intros ref tr' Href' Hobs.
    destruct (heap s !! ref) as [tr|] eqn:Href.
    + destruct (handle_heap req s ref tr Href) as (tr1 & H1 & _ & Ho & Ht & _).
      assert (tr1 = tr') as -> by congruence.
      apply Ht, (Hquiet ref tr Href). congruence.
    + destruct (handle_heap_new req s ref tr' Href Href')
        as (number & env & result & -> & Hres & ->).
      simpl in Hstarts, Hobs. rewrite Hres in Hstarts.
      apply String.eqb_neq in Hstarts. congruence.
  - destruct req as [number env|k|method|ref ev]; simpl.
    + unfold add_contact. destruct (trackers s !! targetJid number);
        [by repeat constructor|].
      destruct (verify env); [by repeat constructor|].
      destruct (verified _); [|by repeat constructor].
      destruct (picture env); by repeat constructor.
    + unfold remove_contact. destruct (trackers s !! k); by repeat constructor.
    + unfold set_probe_method. destruct (_ && _); by repeat constructor.
    + unfold tracker_event. destruct (heap s !! ref) as [tr|] eqn:Href;
        [|by constructor].
      destruct (Tracker.step ev tr) as [tr1 out] eqn:Hstep. simpl.
      destruct out as [data|]; [|by constructor].
      destruct (Tracker.onUpdate tr) as [captured|] eqn:Hobs; [|by constructor].
      constructor; [|by constructor]. simpl.
      apply String.eqb_neq. intros ->.
      rewrite (step_silent ev tr (Hquiet ref tr Href Hobs)) in Hstep.
      congruence.
Qed.

Lemma run_quiet reqs s jid :
  quiet jid s → Forall (fun req => starts jid req = false) reqs →
  Forall (fun e => is_update_for jid e = false) (run reqs s).2.
Proof.
  revert s. induction reqs as [|req rest IH]; intros s Hquiet Hreqs; simpl.
  - constructor.
  - apply Forall_cons in Hreqs as [Hreq Hrest].
    destruct (handle_quiet req s jid Hquiet Hreq) as [Hq1 Hout1].
    destruct (handle req s) as [s1 out1]. simpl in *.
    specialize (IH s1 Hq1 Hrest).
    destruct (run rest s1) as [s2 out2]. simpl in *.
    by apply Forall_app.
Qed.

(** What does hold of a stopped tracker. Once remove-contact has invoked
    stopTracking on the tracker of jid, that tracker never reports again: whatever requests follow, any tick,
    receipt or deadline that reaches it afterwards, also one of a round
    that was in flight at the stop, emits nothing. And when that tracker
    was the only running one reporting under jid, no tracker-update about
    jid is emitted by any later run of requests that starts no tracker for
    jid anew. *)
Theorem stopped_tracker_never_reports hist jid ref later :
  trackers (run hist init).1 !! jid = Some ref →
  (∀ ev,
     (tracker_event ref ev
        (run later (remove_contact jid (run hist init).1).1).1).2 = []) ∧
  (sole_reporter jid ref (run hist init).1 →
   Forall (fun req => starts jid req = false) later →
   Forall (fun e => is_update_for jid e = false)
     (run later (remove_contact jid (run hist init).1).1).2).
Proof.
  intros Hjid.
  destruct (run_registry_ok hist init init_registry_ok jid ref Hjid)
    as (tr & Href & _ & Hobs).
  set (s := (run hist init).1) in *.
  assert (heap (remove_contact jid s).1
          = alter Tracker.stopTracking ref (heap s)) as Hheap.
  { unfold remove_contact. by rewrite Hjid. }
  split.
  - intros ev.
    destruct (run_heap later (remove_contact jid s).1 ref (Tracker.stopTracking tr))
      as (tr' & Href' & _ & _ & Hstopped).
    { by rewrite Hheap, list_lookup_alter_eq, Href. }
    unfold tracker_event. rewrite Href'.
    rewrite step_silent; [done|].
    unfold Tracker.is_tracking. by rewrite Hstopped.
  - intros Hsole Hlater. apply run_quiet; [|done].
    intros ref' tr' Href' Hobs'. rewrite Hheap in Href'.
    rewrite list_lookup_alter in Href'. case_decide; subst.
    + rewrite Href in Href'. by inversion Href'.
    + destruct (Tracker.is_tracking tr') eqn:Htracking; [|done].
      by destruct (H (eq_sym (Hsole ref' tr' Href' Hobs' Htracking))).
Qed.

(** The theorem at a stop in the middle of a round: the late receipt and
    the deadline of that round emit nothing. *)
Lemma stopped_tracker_never_reports_witness :
  (tracker_event 0 (Tracker.Deadline 510 400 None)
     (run Scenario.late_arrivals
        (remove_contact "4915112345678@s.whatsapp.net"
           (run Scenario.mid_round init).1).1).1).2 = [] ∧
  Forall (fun e => is_update_for "4915112345678@s.whatsapp.net" e = false)
    (run Scenario.late_arrivals
       (remove_contact "4915112345678@s.whatsapp.net"
          (run Scenario.mid_round init).1).1).2.
Proof.
  destruct (stopped_tracker_never_reports Scenario.mid_round
              "4915112345678@s.whatsapp.net" 0%nat Scenario.late_arrivals)
    as [Hsilent Hnone]; [vm_compute; reflexivity|].
  split; [apply Hsilent|]. apply Hnone.
  - intros [|[|ref']] tr; vm_compute; intros; congruence.
  - repeat constructor.
Defined.

(** Without the stop the same round completes and its snapshot is
    broadcast, both devices classified against the threshold. *)
Example round_completes_with_update :
  (run Scenario.late_arrivals (run Scenario.mid_round init).1).2
  = [IoEmit
       (EvTrackerUpdate
          (Dashboard.mkUpdate (Some "4915112345678@s.whatsapp.net")
             (Some None) (Some 2)
             (Some [Dashboard.mkDevice "4915112345678:0@s.whatsapp.net"
                      "Online" 120 110;
                    Dashboard.mkDevice "4915112345678:1@s.whatsapp.net"
                      "Offline" 900 850])
             (Some 510) (Some 400)))].
Proof. vm_compute. reflexivity. Qed.

End Lifecycle.

(** ** One tracker per contact *)
Section OneTrackerPerContact.
Import Server.
Implicit Types (s : State) (jid number : string) (ref : nat) (tr : Tracker.t).

(** An add-contact request for a number whose jid is a key of the registry
    is rejected with one error and changes nothing. *)
Lemma add_contact_known_target_rejected number env s ref :
  trackers s !! targetJid number = Some ref →
  add_contact number env s
  = (s, [SocketEmit (EvError (Some (targetJid number))
                       "Already tracking this contact")]).
Proof. intros Hknown. unfold add_contact. by rewrite Hknown. Qed.

Lemma add_contact_known_target_rejected_witness :
  add_contact Scenario.plain_number Scenario.plain_platform Scenario.tracking
  = (Scenario.tracking,
     [SocketEmit (EvError (Some (targetJid Scenario.plain_number))
                    "Already tracking this contact")]).
Proof.
  apply (add_contact_known_target_rejected _ _ _ 0%nat).
  vm_compute. reflexivity.
Defined.

(** When the platform confirms the account under the jid it was asked
    about, a second request for the same number that is handled after the
    handler of the first has run to its end, all its awaits resolved, is
    rejected. Two requests whose handlers overlap are outside this
    statement: the check and the store are separated by an await. *)
Lemma second_add_rejected_when_echoed number env env' s result :
  trackers s !! targetJid number = None →
  verified (verify env) = Some result →
  wa_jid result = targetJid number →
  add_contact number env' (add_contact number env s).1
  = ((add_contact number env s).1,
     [SocketEmit (EvError (Some (targetJid number))
                    "Already tracking this contact")]).
Proof.
  intros Hnew Hres Hecho.
  destruct (add_contact_state number env s) as [Heq|(result' & Hres' & _ & Heq)].
  - exfalso. unfold add_contact in Heq. rewrite Hnew in Heq.
    destruct (verify env) eqn:Hverify; [done|]. rewrite Hres in Heq.
    assert (length (heap (register result s)) = length (heap s)) as Hlen
      by (by destruct (picture env); simpl in Heq; rewrite Heq).
    simpl in Hlen. rewrite length_app in Hlen. simpl in Hlen. lia.
  - assert (result' = result) as -> by congruence.
    rewrite Heq. unfold add_contact. simpl.
    by rewrite <- Hecho, lookup_insert_eq.
Qed.

Lemma second_add_rejected_when_echoed_witness :
  add_contact Scenario.plain_number Scenario.plain_platform
    (add_contact Scenario.plain_number Scenario.plain_platform init).1
  = ((add_contact Scenario.plain_number Scenario.plain_platform init).1,
     [SocketEmit (EvError (Some (targetJid Scenario.plain_number))
                    "Already tracking this contact")]).
Proof.
  apply (second_add_rejected_when_echoed _ _ _ _ Scenario.plain_account);
    reflexivity.
Defined.

Lemma handle_running_registered req s :
  echoes req = true → running_registered s →
  running_registered (handle req s).1.
Proof.
  intros Hecho Hrun ref tr' Href' Htracking.
  destruct (heap s !! ref) as [tr|] eqn:Href.
  - destruct (handle_heap req s ref tr Href) as (tr1 & H1 & Hjid & _ & Ht & _).
    assert (tr1 = tr') as -> by congruence.
    assert (Tracker.is_tracking tr = true) as Hwas.
    { destruct (Tracker.is_tracking tr); [done|]. by rewrite Ht in Htracking. }
    pose proof (Hrun ref tr Href Hwas) as Hreg. rewrite Hjid.
    destruct req as [number env|k|method|ref0 ev]; simpl in *.
    + destruct (add_contact_state number env s)
        as [->|(result & Hres & Hfree & ->)]; [done|]. simpl.
      rewrite Hres in Hecho. apply String.eqb_eq in Hecho.
      rewrite lookup_insert_ne; [done|]. congruence.
    + unfold remove_contact in *.
      destruct (trackers s !! k) as [r|] eqn:Hk; simpl in *; [|done].
      rewrite list_lookup_alter in H1.
      destruct (decide (r = ref)) as [->|Hne].
      * rewrite Href in H1. by inversion H1; subst.
      * rewrite lookup_delete_ne; [done|]. congruence.
    + unfold set_probe_method. by destruct (_ && _).
    + unfold tracker_event. destruct (heap s !! ref0); [|done].
      by destruct (Tracker.step ev t).
  - destruct (handle_heap_new req s ref tr' Href Href')
      as (number & env & result & -> & Hres & ->).
    simpl in *. destruct (add_contact_state number env s)
      as [Heq|(result' & Hres' & _ & Heq)]; rewrite Heq in *.
    + congruence.
    + assert (result' = result) as -> by congruence. simpl in *.
      apply lookup_app_Some in Href' as [Hold|[Hge Hlast]]; [congruence|].
      apply list_lookup_singleton_Some in Hlast as [Hzero _].
      apply lookup_ge_None in Href.
      replace ref with (length (heap s)) by lia. apply lookup_insert_eq.
Qed.

Lemma run_running_registered reqs s :
  Forall (fun req => echoes req = true) reqs → running_registered s →
  running_registered (run reqs s).1.
Proof.
  intros Hecho. revert s.
  induction Hecho as [|req rest Hreq _ IH]; intros s Hs; [done|].
  simpl. pose proof (handle_running_registered req s Hreq Hs) as Hs1.
  destruct (handle req s) as [s1 out1]. specialize (IH s1 Hs1).
  by destruct (run rest s1).
Qed.

(** A list in which any two elements that satisfy [p] sit at the same
    position has at most one element that satisfies [p]. *)
Lemma filter_at_most_one {A} (p : A → bool) (l : list A) :
  (∀ i j x y, l !! i = Some x → l !! j = Some y →
     p x = true → p y = true → i = j) →
  (length (List.filter p l) ≤ 1)%nat.
Proof.
  induction l as [|a l IH]; intros Huniq; simpl; [lia|].
  destruct (p a) eqn:Ha.
  - assert (List.filter p l = []) as ->; [|simpl; lia].
    destruct (List.filter p l) as [|y rest] eqn:Hfilter; [done|].
    assert (In y (List.filter p l)) as Hin by (rewrite Hfilter; by left).
    apply filter_In in Hin as [Hin Hy].
    apply list_elem_of_In, list_elem_of_lookup in Hin as [j Hj].
    by specialize (Huniq 0%nat (S j) a y eq_refl Hj Ha Hy).
  - apply IH. intros i j x y Hi Hj Hx Hy.
    by specialize (Huniq (S i) (S j) x y Hi Hj Hx Hy) as [= ->].
Qed.

(** While the platform echoes the jids it is asked about, every running
    tracker is the registered one of its contact, so no contact has two
    running trackers. *)
Lemma one_running_tracker_when_echoed hist jid :
  Forall (fun req => echoes req = true) hist →
  (length (live jid (run hist init).1) ≤ 1)%nat.
Proof.
  intros Hecho.
  assert (running_registered init) as Hinit by (by intros [|?] ?).
  pose proof (run_running_registered hist init Hecho Hinit) as Hinv.
  apply filter_at_most_one. intros i j x y Hi Hj Hx Hy.
  apply andb_true_iff in Hx as [Hxjid Hx], Hy as [Hyjid Hy].
  apply String.eqb_eq in Hxjid, Hyjid.
  pose proof (Hinv i x Hi Hx) as Hri. pose proof (Hinv j y Hj Hy) as Hrj.
  congruence.
Qed.

Lemma one_running_tracker_when_echoed_witness :
  (length (live "4915112345678@s.whatsapp.net"
             (run [AddContact Scenario.plain_number Scenario.plain_platform;
                   TrackerEvent 0 Tracker.Tick;
                   AddContact Scenario.plain_number Scenario.plain_platform]
                init).1) ≤ 1)%nat.
Proof.
  apply one_running_tracker_when_echoed. repeat constructor.
Defined.

(** C1 on the code. The platform confirms "+55 11 98765-4321" under the jid
    551187654321@s.whatsapp.net, not the jid 5511987654321@s.whatsapp.net the
    server built from the digits. The tracker is stored under the former
    while the duplicate check looks up the latter, so the second request
    finds nothing, is answered with contact-added and no error, and starts a
    second tracker: two tracker objects are running for the contact. The
    registry holds only the second; after remove-contact the first one is
    still running. *)
Lemma second_add_starts_second_tracker :
  trackers (add_contact Scenario.number Scenario.platform init).1
    !! targetJid Scenario.number = None ∧
  trackers (add_contact Scenario.number Scenario.platform init).1
    !! "551187654321@s.whatsapp.net" = Some 0%nat ∧
  (add_contact Scenario.number Scenario.platform
     (add_contact Scenario.number Scenario.platform init).1).2
  = [SocketEmit (EvContactAdded "551187654321@s.whatsapp.net" "5511987654321");
     IoEmit (EvProfilePic "551187654321@s.whatsapp.net" None);
     IoEmit (EvContactName "551187654321@s.whatsapp.net" "Ana")] ∧
  length (live "551187654321@s.whatsapp.net" (run Scenario.twice init).1)
  = 2%nat ∧
  trackers (run Scenario.twice init).1 !! "551187654321@s.whatsapp.net"
  = Some 1%nat ∧
  length (live "551187654321@s.whatsapp.net"
            (run [RemoveContact "551187654321@s.whatsapp.net"]
               (run Scenario.twice init).1).1)
  = 1%nat.
Proof. vm_compute. done. Qed.

(** C6 on the code. After stopTracking was invoked for a jid, no further
    tracker-update should be emitted for it. With the number of C1 added
    twice, two trackers report under 551187654321@s.whatsapp.net and the
    registry holds the second. remove-contact for the jid finds and stops
    that one and answers contact-removed; the first tracker is not stopped,
    and when its round completes, its onUpdate broadcasts a tracker-update
    for the jid that was just removed. *)
Lemma orphan_reports_after_stop :
  trackers (run Scenario.twice_mid_round init).1
    !! "551187654321@s.whatsapp.net" = Some 1%nat ∧
  (remove_contact "551187654321@s.whatsapp.net"
     (run Scenario.twice_mid_round init).1).2
  = [SocketEmit (EvContactRemoved "551187654321@s.whatsapp.net")] ∧
  (Tracker.phase <$>
     heap (remove_contact "551187654321@s.whatsapp.net"
             (run Scenario.twice_mid_round init).1).1 !! 1%nat)
  = Some Tracker.Stopped ∧
  trackers (remove_contact "551187654321@s.whatsapp.net"
              (run Scenario.twice_mid_round init).1).1
    !! "551187654321@s.whatsapp.net" = None ∧
  (run [TrackerEvent 0 (Tracker.Deadline 120 400 None)]
     (remove_contact "551187654321@s.whatsapp.net"
        (run Scenario.twice_mid_round init).1).1).2
  = [IoEmit
       (EvTrackerUpdate
          (Dashboard.mkUpdate (Some "551187654321@s.whatsapp.net")
             (Some None) (Some 1)
             (Some [Dashboard.mkDevice "551187654321:0@s.whatsapp.net"
                      "Online" 120 110])
             (Some 120) (Some 400)))].
Proof. vm_compute. done. Qed.

End OneTrackerPerContact.

(** ** Numbers, routing and the probe method over runs of the server *)
Section ServerRuns.
Import Server.
Implicit Types (s : State) (jid method number : string) (ref : nat).

Lemma strip_non_digits_app a b :
  Js.strip_non_digits (a ++ b)
  = (Js.strip_non_digits a ++ Js.strip_non_digits b)%string.
Proof.
  induction a as [|c a IH]; [done|]. simpl.
  destruct (Js.is_digit c); simpl; by rewrite IH.
Qed.

Lemma strip_non_digits_digits a :
  Runs.all_digits (Js.strip_non_digits a) = true.
Proof.
  induction a as [|c a IH]; [done|]. simpl.
  destruct (Js.is_digit c) eqn:Hc; simpl; [by rewrite Hc|done].
Qed.

Lemma strip_non_digits_fixed a :
  Runs.all_digits a = true → Js.strip_non_digits a = a.
Proof.
  induction a as [|c a IH]; [done|]. simpl.
  intros [Hc Ha]%andb_true_iff. by rewrite Hc, IH.
Qed.

(** The cleaned number consists of digits only, cleaning is idempotent and
    distributes over concatenation, and a number and its cleaned form name
    the same jid. *)
Lemma clean_number_normal_form number :
  Runs.all_digits (cleanNumber number) = true ∧
  cleanNumber (cleanNumber number) = cleanNumber number ∧
  targetJid (cleanNumber number) = targetJid number ∧
  (∀ a b, cleanNumber (a ++ b) = (cleanNumber a ++ cleanNumber b)%string).
Proof.
  unfold targetJid, cleanNumber.
  assert (Js.strip_non_digits (Js.strip_non_digits number)
          = Js.strip_non_digits number) as Hidem
    by apply strip_non_digits_fixed, strip_non_digits_digits.
  repeat split.
  - apply strip_non_digits_digits.
  - done.
  - by rewrite Hidem.
  - apply strip_non_digits_app.
Qed.

(** An add-contact request reads its number only through the digits: two
    numbers with the same digits are handled alike in every state. *)
Lemma add_contact_reads_only_digits n1 n2 env s :
  cleanNumber n1 = cleanNumber n2 →
  add_contact n1 env s = add_contact n2 env s.
Proof.
  intros Hsame. unfold add_contact, targetJid, contactName.
  by rewrite Hsame.
Qed.

Lemma add_contact_reads_only_digits_witness :
  add_contact "+49 (151) 1234-5678" Scenario.plain_platform Scenario.tracking
  = add_contact "4915112345678" Scenario.plain_platform Scenario.tracking.
Proof. apply add_contact_reads_only_digits. reflexivity. Defined.

Lemma handle_well_routed req s :
  Forall (fun e => Runs.well_routed e = true) (handle req s).2.
Proof.
  destruct req as [number env|jid|method|ref ev]; simpl.
  - unfold add_contact. destruct (trackers s !! targetJid number);
      [by repeat constructor|].
    destruct (verify env); [by repeat constructor|].
    destruct (verified _); [|by repeat constructor].
    destruct (picture env); by repeat constructor.
  - unfold remove_contact. destruct (trackers s !! jid); by repeat constructor.
  - unfold set_probe_method. destruct (_ && _); by repeat constructor.
  - unfold tracker_event. destruct (heap s !! ref) as [tr|]; [|by constructor].
    destruct (Tracker.step ev tr) as [tr' [data|]]; simpl;
      [|by constructor].
    destruct (Tracker.onUpdate tr); by repeat constructor.
Qed.

Lemma emissions_well_routed_all reqs s :
  Forall (fun e => Runs.well_routed e = true) (run reqs s).2.
Proof.
  revert s. induction reqs as [|req rest IH]; intros s; simpl; [constructor|].
  pose proof (handle_well_routed req s) as H1.
  destruct (handle req s) as [s1 out1]. specialize (IH s1).
  destruct (run rest s1) as [s2 out2]. by apply Forall_app.
Qed.

(** In every run, errors, contact-added and contact-removed are sent to
    the requesting client alone and never broadcast, while profile
    pictures, names, the probe method and tracker updates are broadcast to
    all clients and never sent to one alone. *)
Lemma emissions_well_routed reqs s e :
  e ∈ (run reqs s).2 → Runs.well_routed e = true.
Proof.
  intros Hin.
  exact (proj1 (Forall_forall _ _) (emissions_well_routed_all reqs s) e Hin).
Qed.

Lemma emissions_well_routed_witness :
  Runs.well_routed
    (SocketEmit (EvContactRemoved "4915112345678@s.whatsapp.net")) = true.
Proof.
  apply (emissions_well_routed
           [RemoveContact "4915112345678@s.whatsapp.net"] Scenario.tracking).
  vm_compute. left.
Defined.

Lemma handle_global_method req s :
  globalProbeMethod (handle req s).1
  = Runs.last_accepted (globalProbeMethod s) [req].
Proof.
  destruct req as [number env|jid|method|ref ev]; simpl.
  - by destruct (add_contact_state number env s) as [->|(r & _ & _ & ->)].
  - unfold remove_contact. by destruct (trackers s !! jid).
  - unfold set_probe_method, Runs.valid_method.
    by destruct (method =? "delete")%string, (method =? "reaction")%string.
  - unfold tracker_event. destruct (heap s !! ref) as [tr|]; [|done].
    by destruct (Tracker.step ev tr).
Qed.

Lemma run_global_method reqs s :
  globalProbeMethod (run reqs s).1
  = Runs.last_accepted (globalProbeMethod s) reqs.
Proof.
  revert s. induction reqs as [|req rest IH]; intros s; [done|].
  simpl. pose proof (handle_global_method req s) as H1.
  destruct (handle req s) as [s1 out1]. specialize (IH s1).
  destruct (run rest s1) as [s2 out2]. simpl in *.
  rewrite IH, H1. done.
Qed.

Lemma last_accepted_valid before reqs :
  Runs.valid_method before = true →
  Runs.valid_method (Runs.last_accepted before reqs) = true.
Proof.
  revert before. induction reqs as [|req rest IH]; intros before Hb; [done|].
  apply IH. destruct req; try done.
  simpl. by destruct (Runs.valid_method method) eqn:Hm.
Qed.

(** The global probe method after a run is the method of the last accepted
    set-probe-method request of the run, and the method before the run
    when there is none: requests that are rejected and all other requests
    leave it alone. From start-up it is therefore always delete or
    reaction. *)
Lemma global_method_is_last_accepted reqs s :
  globalProbeMethod (run reqs s).1
  = Runs.last_accepted (globalProbeMethod s) reqs ∧
  Runs.valid_method (globalProbeMethod (run reqs init).1) = true.
Proof.
  split; [apply run_global_method|].
  rewrite run_global_method. by apply last_accepted_valid.
Qed.

End ServerRuns.

(** ** Registered trackers *)
Section RegisteredTrackers.
Import Server.
Implicit Types (s : State) (jid method number : string) (ref : nat).

Lemma step_method ev (tr : Tracker.t) :
  Tracker.probeMethod (Tracker.step ev tr).1 = Tracker.probeMethod tr.
Proof.
  unfold Tracker.step. destruct (Tracker.phase tr); [done| |done].
  by destruct ev, (Tracker.round tr).
Qed.

Lemma handle_follows_global req s :
  Runs.follows_global s → Runs.follows_global (handle req s).1.
Proof.
  intros Hinv jid ref Hjid.
  destruct req as [number env|k|method|ref' ev]; simpl in *.
  - destruct (add_contact_state number env s) as [Heq|(result & _ & _ & Heq)];
      rewrite Heq in *; [by apply (Hinv jid ref)|]. simpl in *.
    apply lookup_insert_Some in Hjid as [[<- <-]|[_ Hold]].
    + eexists. by rewrite list_lookup_middle.
    + destruct (Hinv jid ref Hold) as (tr & Href & Hm). exists tr.
      by rewrite lookup_app_l by (by eapply lookup_lt_Some).
  - unfold remove_contact in *.
    destruct (trackers s !! k) as [r|]; simpl in *; [|by apply (Hinv jid ref)].
    apply lookup_delete_Some in Hjid as [_ Hold].
    destruct (Hinv jid ref Hold) as (tr & Href & Hm).
    rewrite list_lookup_alter.
    case_decide; subst; rewrite Href; simpl; eauto.
  - unfold set_probe_method in *.
    destruct (_ && _); simpl in *; [by apply (Hinv jid ref)|].
    destruct (Hinv jid ref Hjid) as (tr & Href & Hm).
    rewrite set_all_lookup, Href.
    rewrite decide_True by (apply registry_values; eauto).
    simpl. eauto.
  - unfold tracker_event in *.
    destruct (heap s !! ref') as [tr0|] eqn:Href'; simpl in *;
      [|by apply (Hinv jid ref)].
    destruct (Tracker.step ev tr0) as [tr1 out] eqn:Hstep. simpl in *.
    destruct (Hinv jid ref Hjid) as (tr & Href & Hm).
    destruct (decide (ref' = ref)) as [->|Hne].
    + rewrite list_lookup_insert_eq by (by eapply lookup_lt_Some).
      exists tr1. split; [done|].
      pose proof (step_method ev tr0) as Hkeep. rewrite Hstep in Hkeep.
      simpl in Hkeep. congruence.
    + rewrite list_lookup_insert_ne by done. eauto.
Qed.

Lemma run_follows_global reqs s :
  Runs.follows_global s → Runs.follows_global (run reqs s).1.
Proof.
  revert s. induction reqs as [|req rest IH]; intros s Hs; [done|].
  simpl. pose proof (handle_follows_global req s Hs) as H1.
  destruct (handle req s) as [s1 out1]. specialize (IH s1 H1).
  by destruct (run rest s1).
Qed.

(** After every run from start-up, each tracker of the registry probes
    with the global probe method: a new tracker is given the method at
    registration and an accepted set-probe-method request reaches every
    registered tracker. *)
Lemma registered_trackers_follow_global_method hist jid ref :
  trackers (run hist init).1 !! jid = Some ref →
  ∃ tr, heap (run hist init).1 !! ref = Some tr ∧
        Tracker.probeMethod tr = globalProbeMethod (run hist init).1.
Proof.
  intros Hjid.
  assert (Runs.follows_global init) as Hinit.
  { intros j r Hj. simpl in Hj. by rewrite lookup_empty in Hj. }
  exact (run_follows_global hist init Hinit jid ref Hjid).
Qed.

Lemma registered_trackers_follow_global_method_witness :
  ∃ tr,
    heap (run [AddContact Scenario.plain_number Scenario.plain_platform;
               SetProbeMethod "reaction";
               SetProbeMethod "typing"] init).1 !! 0%nat = Some tr ∧
    Tracker.probeMethod tr = "reaction".
Proof.
  destruct (registered_trackers_follow_global_method
              [AddContact Scenario.plain_number Scenario.plain_platform;
               SetProbeMethod "reaction";
               SetProbeMethod "typing"]
              "4915112345678@s.whatsapp.net" 0%nat)
    as (tr & Href & Hm); [vm_compute; reflexivity|].
  exists tr. split; [exact Href | exact Hm].
Defined.

(** After every run from start-up, whatever a tracker of the registry
    emits is a single broadcast tracker-update whose jid is the key the
    tracker is registered under. *)
Lemma registered_tracker_updates_name_their_key hist jid ref ev :
  trackers (run hist init).1 !! jid = Some ref →
  (tracker_event ref ev (run hist init).1).2 = [] ∨
  ∃ data,
    (tracker_event ref ev (run hist init).1).2
    = [IoEmit (EvTrackerUpdate (tracker_update jid data))].
Proof.
  intros Hjid.
  destruct (run_registry_ok hist init init_registry_ok jid ref Hjid)
    as (tr & Href & _ & Hobs).
  unfold tracker_event. rewrite Href.
  destruct (Tracker.step ev tr) as [tr' [data|]]; simpl; [|by left].
  rewrite Hobs. right. by exists data.
Qed.

Lemma registered_tracker_updates_name_their_key_witness :
  (tracker_event 0 (Tracker.Deadline 120 400 None)
     (run Scenario.mid_round init).1).2 = [] ∨
  ∃ data,
    (tracker_event 0 (Tracker.Deadline 120 400 None)
       (run Scenario.mid_round init).1).2
    = [IoEmit (EvTrackerUpdate
                 (tracker_update "4915112345678@s.whatsapp.net" data))].
Proof.
  apply registered_tracker_updates_name_their_key. vm_compute; reflexivity.
Defined.

(** Adding a contact whose jid is not yet a registry key and removing it
    again gives back the registry and the probe method as they were; the
    tracker object that was started stays in the heap, stopped, and the
    requester is sent one contact-removed. *)
Lemma add_then_remove_restores_registry number env s result :
  trackers s !! targetJid number = None →
  verified (verify env) = Some result →
  trackers s !! wa_jid result = None →
  ∃ s2,
    remove_contact (wa_jid result) (add_contact number env s).1
    = (s2, [SocketEmit (EvContactRemoved (wa_jid result))]) ∧
    trackers s2 = trackers s ∧
    globalProbeMethod s2 = globalProbeMethod s ∧
    heap s2 = (heap s ++
               [Tracker.stopTracking
                  (start_tracker (globalProbeMethod s) (wa_jid result))])%list.
Proof.
  intros Hfree Hres Hnew.
  destruct (add_contact_state number env s) as [Heq|(result' & Hres' & _ & Heq)].
  - exfalso. unfold add_contact in Heq. rewrite Hfree in Heq.
    destruct (verify env) eqn:Hverify; [done|]. rewrite Hres in Heq.
    assert (length (heap (register result s)) = length (heap s)) as Hlen
      by (by destruct (picture env); simpl in Heq; rewrite Heq).
    simpl in Hlen. rewrite length_app in Hlen. simpl in Hlen. lia.
  - assert (result' = result) as -> by congruence. rewrite Heq.
    unfold remove_contact. simpl. rewrite lookup_insert_eq.
    eexists. split; [reflexivity|]. simpl. repeat split.
    + by rewrite delete_insert_eq, delete_id.
    + rewrite alter_app_r_alt by lia. by rewrite Nat.sub_diag.
Qed.

Lemma add_then_remove_restores_registry_witness :
  ∃ s2,
    remove_contact "4915112345678@s.whatsapp.net"
      (add_contact Scenario.plain_number Scenario.plain_platform init).1
    = (s2, [SocketEmit (EvContactRemoved "4915112345678@s.whatsapp.net")]) ∧
    trackers s2 = ∅.
Proof.
  destruct (add_then_remove_restores_registry Scenario.plain_number
              Scenario.plain_platform init Scenario.plain_account)
    as (s2 & Hrun & Hreg & _); [reflexivity..|].
  exists s2. split; [exact Hrun | exact Hreg].
Defined.

End RegisteredTrackers.

(** ** The connection flag and the greeting of a client *)
Section ConnectionRuns.
Import Connection.
Implicit Types (p : Process) (inputs : list Input).

Lemma react_projections loggedOut i p :
  server (react loggedOut i p).1
  = (Server.run (controls [i]) (server p)).1 ∧
  isWhatsAppConnected (react loggedOut i p).1
  = last_transition (isWhatsAppConnected p) [i] ∧
  connects (react loggedOut i p).1
  = (connects p + if reconnects loggedOut i then 1 else 0)%nat.
Proof.
  destruct i as [u| |req]; simpl.
  - unfold connection_update. destruct (connection u) as [c|]; simpl;
      [|repeat split; lia].
    destruct (c =? "close")%string; simpl.
    { destruct (shouldReconnect loggedOut u); repeat split; lia. }
    destruct (c =? "open")%string; simpl; repeat split; lia.
  - repeat split; lia.
  - destruct (Server.handle req (server p)) as [s' out]. simpl.
    repeat split; lia.
Qed.

Lemma run_projections loggedOut inputs p :
  server (run loggedOut inputs p).1
  = (Server.run (controls inputs) (server p)).1 ∧
  isWhatsAppConnected (run loggedOut inputs p).1
  = last_transition (isWhatsAppConnected p) inputs ∧
  connects (run loggedOut inputs p).1
  = (connects p + length (List.filter (reconnects loggedOut) inputs))%nat.
Proof.
  revert p. induction inputs as [|i rest IH]; intros p; simpl.
  - repeat split; lia.
  - destruct (react_projections loggedOut i p) as (Hs & Hf & Hc).
    destruct (react loggedOut i p) as [p1 out1]. simpl in *.
    destruct (IH p1) as (Hs' & Hf' & Hc').
    destruct (run loggedOut rest p1) as [p2 out2]. simpl in *.
    rewrite Hs', Hf', Hc', Hs, Hf, Hc. repeat split.
    + destruct i as [u| |req]; simpl; try done.
      destruct (Server.handle req (server p)) as [s1 o1]. simpl.
      by destruct (Server.run _ s1).
    + destruct (reconnects loggedOut i); simpl; lia.
Qed.

(** What a client is sent when it connects, after any history of
    connection updates, client connections and control requests since
    start-up: connection-open exactly when the latest update that said open
    or close said open, then the probe method of the last accepted
    set-probe-method request (delete when there was none), then the keys of
    the registry as the control requests alone have left it. *)
Lemma greeting_of_new_client loggedOut inputs :
  on_connection (run loggedOut inputs start).1
  = ((if last_transition false inputs then [ToSocket ConnectionOpen] else []) ++
     [ToSocket (ProbeMethod (Runs.last_accepted "delete" (controls inputs)));
      ToSocket (TrackedContacts
                  (dom (Server.trackers
                          (Server.run (controls inputs) Server.init).1)))])%list.
Proof.
  destruct (run_projections loggedOut inputs start) as (Hs & Hf & _).
  unfold on_connection. rewrite Hf, Hs. simpl.
  by rewrite run_global_method.
Qed.


End ConnectionRuns.

(** ** The dashboard's entries over sequences of events *)
Section DashboardRuns.
Import Dashboard.
Implicit Types (contacts : gmap string ContactInfo) (jid : string).

Lemma dispatch_keeps_keys ev contacts :
  (∀ jid c, contacts !! jid = Some c → ci_jid c = jid) →
  ∀ jid c, dispatch ev contacts !! jid = Some c → ci_jid c = jid.
Proof.
  intros Hkeyed jid c.
  destruct ev as [now u|k url|k name|k number|k]; simpl.
  - unfold onTrackerUpdate. destruct (u_jid u) as [k|]; [|by apply Hkeyed].
    destruct (Js.truthy k); [|by apply Hkeyed].
    destruct (contacts !! k) as [c0|] eqn:Hk; [|by apply Hkeyed].
    intros [[<- <-]|[_ Hold]]%lookup_insert_Some; [|by apply Hkeyed].
    simpl. by apply Hkeyed.
  - unfold onProfilePic.
    destruct (contacts !! k) as [c0|] eqn:Hk; [|by apply Hkeyed].
    intros [[<- <-]|[_ Hold]]%lookup_insert_Some; [|by apply Hkeyed].
    simpl. by apply Hkeyed.
  - unfold onContactName.
    destruct (contacts !! k) as [c0|] eqn:Hk; [|by apply Hkeyed].
    intros [[<- <-]|[_ Hold]]%lookup_insert_Some; [|by apply Hkeyed].
    simpl. by apply Hkeyed.
  - unfold onContactAdded.
    intros [[<- <-]|[_ Hold]]%lookup_insert_Some; [done|by apply Hkeyed].
  - unfold onContactRemoved.
    intros [_ Hold]%lookup_delete_Some. by apply Hkeyed.
Qed.

(** Whatever events arrive, in whatever order, every entry of the
    dashboard's map is stored under its own jid. *)
Lemma dashboard_entries_keyed_by_jid events jid c :
  Ui.dispatch_all events ∅ !! jid = Some c → ci_jid c = jid.
Proof.
  assert (∀ contacts,
            (∀ j c0, contacts !! j = Some c0 → ci_jid c0 = j) →
            ∀ j c0, Ui.dispatch_all events contacts !! j = Some c0 →
                    ci_jid c0 = j) as Hall.
  { induction events as [|ev rest IH]; intros contacts Hkeyed; [done|].
    simpl. apply IH. by apply dispatch_keeps_keys. }
  apply Hall. intros j c0 Hj. by rewrite lookup_empty in Hj.
Qed.

Lemma dashboard_entries_keyed_by_jid_witness :
  ci_jid (mkContact "4915@s.whatsapp.net" "4915" "Ana" [] [] 0 None None)
  = "4915@s.whatsapp.net".
Proof.
  apply (dashboard_entries_keyed_by_jid
           [ContactAdded "4915@s.whatsapp.net" "4915";
            ContactName "4915@s.whatsapp.net" "Ana";
            ContactName "4916@s.whatsapp.net" "Bo"]).
  vm_compute. reflexivity.
Defined.

Lemma passive_keeps_history ev contacts jid c :
  Ui.passive ev = true → contacts !! jid = Some c →
  ∃ c', dispatch ev contacts !! jid = Some c' ∧
        ci_data c `prefix_of` ci_data c' ∧
        (length (ci_data c') ≤ S (length (ci_data c)))%nat ∧
        ci_jid c' = ci_jid c ∧
        ci_displayNumber c' = ci_displayNumber c.
Proof.
  intros Hpassive Hc.
  assert (∃ c', Some c = Some c' ∧ ci_data c `prefix_of` ci_data c' ∧
                (length (ci_data c') ≤ S (length (ci_data c)))%nat ∧
                ci_jid c' = ci_jid c ∧
                ci_displayNumber c' = ci_displayNumber c) as Hsame.
  { exists c. repeat split; [done|lia]. }
  destruct ev as [now u|k url|k name|k number|k]; simpl in *; try done.
  - unfold onTrackerUpdate. destruct (u_jid u) as [k|]; [|by rewrite Hc].
    destruct (Js.truthy k); [|by rewrite Hc].
    destruct (contacts !! k) as [c0|] eqn:Hk; [|by rewrite Hc].
    destruct (decide (k = jid)) as [->|Hne];
      [|by rewrite lookup_insert_ne, Hc].
    rewrite lookup_insert_eq. assert (c0 = c) as -> by congruence.
    eexists. split; [done|]. simpl.
    destruct (newDataPoint now u); repeat split; try done.
    + by apply prefix_app_r.
    + rewrite length_app. simpl. lia.
    + lia.
  - unfold onProfilePic.
    destruct (contacts !! k) as [c0|] eqn:Hk; [|by rewrite Hc].
    destruct (decide (k = jid)) as [->|Hne];
      [|by rewrite lookup_insert_ne, Hc].
    rewrite lookup_insert_eq. assert (c0 = c) as -> by congruence.
    eexists. split; [done|]. simpl. repeat split; [done|lia].
  - unfold onContactName.
    destruct (contacts !! k) as [c0|] eqn:Hk; [|by rewrite Hc].
    destruct (decide (k = jid)) as [->|Hne];
      [|by rewrite lookup_insert_ne, Hc].
    rewrite lookup_insert_eq. assert (c0 = c) as -> by congruence.
    eexists. split; [done|]. simpl. repeat split; [done|lia].
Qed.

(** Between its contact-added and its contact-removed, a contact's chart
    history is append-only: after any tracker-update, profile-pic and
    contact-name events, about it or about others, the contact is still
    there, its earlier chart points are a prefix of the current ones, at
    most one point was appended per event, and its jid and display number
    are what they were. *)
Lemma chart_history_append_only events contacts jid c :
  Forall (fun ev => Ui.passive ev = true) events →
  contacts !! jid = Some c →
  ∃ c', Ui.dispatch_all events contacts !! jid = Some c' ∧
        ci_data c `prefix_of` ci_data c' ∧
        (length (ci_data c') ≤ length (ci_data c) + length events)%nat ∧
        ci_jid c' = ci_jid c ∧
        ci_displayNumber c' = ci_displayNumber c.
Proof.
  intros Hpassive. revert contacts c.
  induction Hpassive as [|ev rest Hev _ IH]; intros contacts c Hc; simpl.
  - exists c. split; [done|]. split; [done|]. split; [lia|done].
  - destruct (passive_keeps_history ev contacts jid c Hev Hc)
      as (c1 & H1 & Hp1 & Hl1 & Hj1 & Hd1).
    destruct (IH _ c1 H1) as (c2 & H2 & Hp2 & Hl2 & Hj2 & Hd2).
    exists c2. repeat split; [done| |lia|congruence|congruence].
    by etrans.
Qed.

Lemma chart_history_append_only_witness :
  ∃ c',
    Ui.dispatch_all
      [TrackerUpdate 1000
         (mkUpdate (Some "4915@s.whatsapp.net") None (Some 1)
            (Some [mkDevice "4915:0" "Online" 120 130]) (Some 120) (Some 400));
       ProfilePic "4915@s.whatsapp.net" None]
      (onContactAdded "4915@s.whatsapp.net" "4915" ∅)
      !! "4915@s.whatsapp.net" = Some c' ∧
    ci_displayNumber c' = "4915".
Proof.
  destruct (chart_history_append_only
              [TrackerUpdate 1000
                 (mkUpdate (Some "4915@s.whatsapp.net") None (Some 1)
                    (Some [mkDevice "4915:0" "Online" 120 130])
                    (Some 120) (Some 400));
               ProfilePic "4915@s.whatsapp.net" None]
              (onContactAdded "4915@s.whatsapp.net" "4915" ∅)
              "4915@s.whatsapp.net"
              (mkContact "4915@s.whatsapp.net" "4915" "4915" [] [] 0 None None))
    as (c' & Hlookup & _ & _ & _ & Hnumber);
    [repeat constructor | vm_compute; reflexivity |].
  exists c'. split; [exact Hlookup | exact Hnumber].
Defined.

Lemma plots_newDataPoint now update :
  Ui.plots update = true → is_Some (newDataPoint now update).
Proof.
  unfold Ui.plots, newDataPoint.
  destruct (u_median update); [|done].
  destruct (u_devices update) as [[|d0 rest]|]; [done| |done].
  intros _. by rewrite headline_state_find.
Qed.

(** Every tracker-update for a known contact that carries a median and at
    least one device appends exactly one chart point, and none is ever
    dropped: after n such updates the history is n points longer. *)
Lemma chart_grows_by_one_per_update (updates : list (Z * Update))
    contacts jid c :
  Js.truthy jid = true →
  Forall (fun nu => u_jid nu.2 = Some jid ∧ Ui.plots nu.2 = true) updates →
  contacts !! jid = Some c →
  ∃ c',
    Ui.dispatch_all (map (fun nu => TrackerUpdate nu.1 nu.2) updates) contacts
      !! jid = Some c' ∧
    length (ci_data c') = (length (ci_data c) + length updates)%nat.
Proof.
  intros Htruthy Hupdates. revert contacts c.
  induction Hupdates as [|[now u] rest [Hjid Hplots] _ IH];
    intros contacts c Hc; simpl.
  - exists c. split; [done|lia].
  - simpl in Hjid, Hplots.
    destruct (plots_newDataPoint now u Hplots) as [pt Hpt].
    destruct (IH (onTrackerUpdate now u contacts) (updateContact now u c))
      as (c' & Hc' & Hlen).
    { unfold onTrackerUpdate. by rewrite Hjid, Htruthy, Hc, lookup_insert_eq. }
    exists c'. split; [done|]. rewrite Hlen. simpl. rewrite Hpt.
    rewrite length_app. simpl. lia.
Qed.

Lemma chart_grows_by_one_per_update_witness :
  ∃ c',
    Ui.dispatch_all
      (map (fun nu => TrackerUpdate nu.1 nu.2)
         [(1000, mkUpdate (Some "4915@s.whatsapp.net") None (Some 1)
                   (Some [mkDevice "4915:0" "Online" 120 130])
                   (Some 120) (Some 400));
          (3000, mkUpdate (Some "4915@s.whatsapp.net") None (Some 1)
                   (Some [mkDevice "4915:0" "Offline" 900 515])
                   (Some 900) (Some 400))])
      (onContactAdded "4915@s.whatsapp.net" "4915" ∅)
      !! "4915@s.whatsapp.net" = Some c' ∧
    length (ci_data c') = 2%nat.
Proof.
  destruct (chart_grows_by_one_per_update
              [(1000, mkUpdate (Some "4915@s.whatsapp.net") None (Some 1)
                        (Some [mkDevice "4915:0" "Online" 120 130])
                        (Some 120) (Some 400));
               (3000, mkUpdate (Some "4915@s.whatsapp.net") None (Some 1)
                        (Some [mkDevice "4915:0" "Offline" 900 515])
                        (Some 900) (Some 400))]
              (onContactAdded "4915@s.whatsapp.net" "4915" ∅)
              "4915@s.whatsapp.net"
              (mkContact "4915@s.whatsapp.net" "4915" "4915" [] [] 0 None None))
    as (c' & Hlookup & Hlen);
    [reflexivity | repeat constructor | vm_compute; reflexivity |].
  exists c'. split; [exact Hlookup | exact Hlen].
Defined.

End DashboardRuns.

(** ** From the server's emissions to the dashboards *)
Section EndToEnd.
Import Server.
Implicit Types (s : State) (ui : Ui.State) (jid number : string).

Lemma onProfilePic_known jid url (contacts : gmap string Dashboard.ContactInfo) c :
  contacts !! jid = Some c →
  Dashboard.onProfilePic jid url contacts !! jid
  = Some (Dashboard.mkContact (Dashboard.ci_jid c)
            (Dashboard.ci_displayNumber c) (Dashboard.ci_contactName c)
            (Dashboard.ci_data c) (Dashboard.ci_devices c)
            (Dashboard.ci_deviceCount c) (Dashboard.ci_presence c) url).
Proof.
  intros Hc. unfold Dashboard.onProfilePic. by rewrite Hc, lookup_insert_eq.
Qed.

Lemma onContactName_known jid name (contacts : gmap string Dashboard.ContactInfo) c :
  contacts !! jid = Some c →
  Dashboard.onContactName jid name contacts !! jid
  = Some (Dashboard.mkContact (Dashboard.ci_jid c)
            (Dashboard.ci_displayNumber c) name
            (Dashboard.ci_data c) (Dashboard.ci_devices c)
            (Dashboard.ci_deviceCount c) (Dashboard.ci_presence c)
            (Dashboard.ci_profilePic c)).
Proof.
  intros Hc. unfold Dashboard.onContactName. by rewrite Hc, lookup_insert_eq.
Qed.

(** When an add-contact request is accepted and the picture fetch
    resolves, the requesting dashboard, after handling what the server
    sends it, shows the contact under the jid the platform confirmed, with
    the cleaned number as display number, the platform's name (the cleaned
    number when it gives none), the fetched picture, no chart points and no
    devices; and its input field is cleared. *)
Lemma requester_sees_new_contact number env s url clock k ui result :
  trackers s !! targetJid number = None →
  verified (verify env) = Some result →
  picture env = PicResolves url →
  Ui.contacts
    (Ui.receive_all clock k
       (Ui.delivered true (add_contact number env s).2) ui)
    !! wa_jid result
  = Some (Dashboard.mkContact (wa_jid result) (cleanNumber number)
            (contactName number (nameInfo env)) [] [] 0 None url) ∧
  Ui.inputNumber
    (Ui.receive_all clock k
       (Ui.delivered true (add_contact number env s).2) ui) = "".
Proof.
  intros Hfree Hres Hpic. unfold add_contact. rewrite Hfree.
  destruct (verify env) eqn:Hverify; [by simpl in Hres|].
  rewrite Hres, Hpic. simpl.
  split; [|done].
  rewrite (onContactName_known _ _ _
             (Dashboard.mkContact (wa_jid result) (cleanNumber number)
                (cleanNumber number) [] [] 0 None url)); [done|].
  rewrite (onProfilePic_known _ _ _
             (Dashboard.mkContact (wa_jid result) (cleanNumber number)
                (cleanNumber number) [] [] 0 None None)); [done|].
  unfold Dashboard.onContactAdded. apply lookup_insert_eq.
Qed.

Lemma requester_sees_new_contact_witness :
  Ui.contacts
    (Ui.receive_all (fun _ => 1000) 0
       (Ui.delivered true
          (add_contact Scenario.number Scenario.platform init).2)
       Ui.initial)
    !! "551187654321@s.whatsapp.net"
  = Some (Dashboard.mkContact "551187654321@s.whatsapp.net" "5511987654321"
            "Ana" [] [] 0 None None).
Proof.
  apply (requester_sees_new_contact Scenario.number Scenario.platform init
           None (fun _ => 1000) 0%nat Ui.initial Scenario.account);
    reflexivity.
Defined.

Lemma receive_broadcast_keeps_entries now e ui j :
  Runs.well_routed (IoEmit e) = true →
  is_Some (Ui.contacts (Ui.receive now e ui) !! j)
  ↔ is_Some (Ui.contacts ui !! j).
Proof.
  destruct e; simpl; try done; intros _.
  - apply onProfilePic_entries.
  - apply onContactName_entries.
  - apply onTrackerUpdate_entries.
Qed.

Lemma bystander_keeps_entries emits clock k ui j :
  Forall (fun e => Runs.well_routed e = true) emits →
  is_Some (Ui.contacts
             (Ui.receive_all clock k (Ui.delivered false emits) ui) !! j)
  ↔ is_Some (Ui.contacts ui !! j).
Proof.
  intros Hrouted. revert k ui.
  induction Hrouted as [|emit rest Hemit _ IH]; intros k ui; [done|].
  destruct emit as [e|e]; simpl; [apply IH|].
  rewrite IH. by apply receive_broadcast_keeps_entries.
Qed.

(** A dashboard that is not the requester of any request of a run neither
    gains nor loses a contact entry through that run: the broadcasts it
    receives (profile pictures, names, probe method, tracker updates) only
    touch entries it already has, and contact-added and contact-removed are
    never broadcast. A dashboard that starts empty stays empty. *)
Lemma bystander_dashboard_keeps_its_contacts reqs s clock k ui j :
  is_Some (Ui.contacts
             (Ui.receive_all clock k (Ui.delivered false (run reqs s).2) ui)
           !! j)
  ↔ is_Some (Ui.contacts ui !! j).
Proof. apply bystander_keeps_entries, emissions_well_routed_all. Qed.






End EndToEnd.
